(** * FRaN-X (Home.py): a shallow embedding and its verified properties

    The development follows [Home.py]: the two-stage prediction helpers
    ([predict_with_cached_model], [run_stage2_with_cached_model] and its three
    local functions), the start-up availability check, [filter_labels_by_role]
    and the per-role sentence rendering loops.

    Conventions.
    - A Python [float] that is a number is a rational: scores are [Q] and the
      comparisons [>], [>=], [==] are the exact ones.  The two float
      operations whose result is rounded ([round(x, 4)] and the subtraction
      [top_score - margin]) are parameters of the model.
    - A Python [str] used as text is a list of code points ([list N]); labels,
      role names and entity names are [string]s.
    - A Python [dict] is an association list in insertion order with
      pairwise distinct keys.
    - Exceptions and [print] are threaded through a small monad [M]. *)

From Stdlib Require Import List ZArith NArith QArith Bool String Ascii Lia.
From Stdlib Require Import Sorted Permutation Lqa.
From Stdlib Require Import DecimalString DecimalPos DecimalZ.
Import ListNotations.

Set Implicit Arguments.
Local Open Scope string_scope.

(* ====================================================================== *)
(** * Part I: definitions                                                  *)
(* ====================================================================== *)

(** ** Floats *)

Definition pyfloat : Type := Q.

(** [a > b], [a >= b] and [a == b] on floats. *)
Definition fgt (a b : pyfloat) : bool := negb (Qle_bool a b).
Definition fge (a b : pyfloat) : bool := Qle_bool b a.
Definition feq (a b : pyfloat) : bool := Qeq_bool a b.

(** The literals [0.01] and [0.05] denote these doubles. *)
Definition default_threshold : pyfloat :=
  5764607523034235 # 576460752303423488.
Definition default_margin : pyfloat :=
  3602879701896397 # 72057594037927936.

(** ** Insertion-ordered dictionaries with [str] keys *)

Module Dict.
Section Ops.
Context {V : Type}.

Definition t : Type := list (string * V).

Definition empty : t := [].

(** [d.get(k)] *)
Fixpoint get (k : string) (d : t) : option V :=
match d with
| [] => None
| (k', v) :: d' => if String.eqb k k' then Some v else get k d'
end.

(** [k in d] *)
Definition contains (k : string) (d : t) : bool :=
match get k d with Some _ => true | None => false end.

(** [d[k] = v]: an existing key keeps its position, a new one goes last. *)
Fixpoint set (k : string) (v : V) (d : t) : t :=
match d with
| [] => [(k, v)]
| (k', v') :: d' =>
    if String.eqb k k' then (k', v) :: d' else (k', v') :: set k v d'
end.

(** [for k, v in items: d[k] = v] *)
Definition add_items (items : list (string * V)) (d : t) : t :=
fold_left (fun d kv => set (fst kv) (snd kv) d) items d.

(** [dict(items)] and the dict comprehension [{k: v for ...}]. *)
Definition of_items (items : list (string * V)) : t :=
add_items items empty.

Definition items (d : t) : list (string * V) := d.
Definition keys (d : t) : list string := map fst d.
Definition values (d : t) : list V := map snd d.

(** The representation invariant: keys are pairwise distinct. *)
Definition wf (d : t) : Prop := NoDup (keys d).
End Ops.
Arguments t : clear implicits.
End Dict.

(** ** Exceptions and standard output *)

(** The exceptions that [except Exception] catches. *)
Inductive exn : Type :=
| Exception (msg : string)
| IndexError (msg : string).

Definition exn_str (e : exn) : string :=
  match e with Exception m => m | IndexError m => m end.

Inductive result (A : Type) : Type :=
| Ok (a : A)
| Raise (e : exn).
Arguments Ok {A} a.
Arguments Raise {A} e.

(** A computation reads and extends the lines printed so far. *)
Definition M (A : Type) : Type := list string -> result A * list string.

Definition ret {A} (a : A) : M A := fun out => (Ok a, out).

Definition bind {A B} (c : M A) (k : A -> M B) : M B :=
  fun out =>
    match c out with
    | (Ok a, out') => k a out'
    | (Raise e, out') => (Raise e, out')
    end.

Definition lift {A} (r : result A) : M A := fun out => (r, out).

(** [try: c  except Exception as e: h e] *)
Definition try_except {A} (c : M A) (h : exn -> M A) : M A :=
  fun out =>
    match c out with
    | (Ok a, out') => (Ok a, out')
    | (Raise e, out') => h e out'
    end.

Definition print (line : string) : M unit :=
  fun out => (Ok tt, (out ++ [line])%list).

Declare Scope py_scope.
Delimit Scope py_scope with py.
Notation "x <- c ;; k" := (bind c (fun x => k))
  (at level 61, c at next level, right associativity) : py_scope.
Notation "c ;;; k" := (bind c (fun _ => k))
  (at level 61, right associativity) : py_scope.

(** The loop of [df.apply(f, axis=1)] over the rows of a frame that has
    rows: [f] on every row, in order; the first exception that escapes [f]
    ends the traversal. *)
Fixpoint apply_each {A B} (f : A -> M B) (rows : list A) : M (list B) :=
  match rows with
  | [] => ret []
  | r :: rows' =>
      (b <- f r ;; bs <- apply_each f rows' ;; ret (b :: bs))%py
  end.

(** What [df.apply(f, axis=1)] returns: a column with one value per row, or
    a copy of the frame, with all its columns. *)
Inductive applied (B : Type) : Type :=
| Column (values : list B)
| FrameCopy.
Arguments Column {B} values.
Arguments FrameCopy {B}.

(** [df.apply(f, axis=1)].  On a frame with rows it is the loop.  On a frame
    without rows pandas calls [f] once on a placeholder row whose cells are
    NaN, to see what [f] returns, and drops the value and any exception: when
    the call returns (a [dict] here, never a [Series]) the result is a column
    without values, when it raises the result is a copy of the frame.  What
    the call printed stays printed. *)
Definition apply_rows {A B} (nan_row : A) (f : A -> M B) (rows : list A)
  : M (applied B) :=
  match rows with
  | [] =>
      fun out =>
        match f nan_row out with
        | (Ok _, out') => (Ok (Column []), out')
        | (Raise _, out') => (Ok FrameCopy, out')
        end
  | _ :: _ => (bs <- apply_each f rows ;; ret (Column bs))%py
  end.

(** [df[name] = value] for what [df.apply] returned: a frame, which has
    several columns here, cannot be stored in one column. *)
Definition set_column {B} (name : string) (value : applied B) : M (list B) :=
  match value with
  | Column values => ret values
  | FrameCopy =>
      lift (Raise (Exception
                     ("Cannot set a DataFrame with multiple columns to the "
                        ++ "single column " ++ name)))
  end.

(** [xs[0]] *)
Definition getitem0 {A} (xs : list A) : result A :=
  match xs with
  | [] => Raise (IndexError "list index out of range")
  | x :: _ => Ok x
  end.

(** ** Stage 2: fine-grained role classification *)

(** One element of the classifier's answer, [{'label': ..., 'score': ...}]. *)
Record label_score : Type := LabelScore { label : string; score : pyfloat }.

(** A row of [tc_input.csv] as the classifier reads it. *)
Record tc_row : Type := TcRow {
  entity_mention : string;
  p_main_role : string;
  context : string
}.

(** The placeholder row of NaN cells, as the f-string of [input_text] shows
    them. *)
Definition nan_tc_row : tc_row := TcRow "nan" "nan" "nan".

(** The row after [run_stage2_with_cached_model] has added its columns. *)
Record stage2_row : Type := Stage2Row {
  input_row : tc_row;
  predicted_fine_with_scores : Dict.t pyfloat;
  predicted_fine_margin : list string;
  p_fine_roles_w_conf : Dict.t pyfloat;
  article_id : string
}.

Definition newline : string := String (ascii_of_nat 10) EmptyString.

(** [sorted(items, key=lambda x: x[1], reverse=True)]: the stable sort by
    decreasing value; entries of equal value keep their order. *)
Fixpoint insert_desc (x : string * pyfloat) (l : list (string * pyfloat))
  : list (string * pyfloat) :=
  match l with
  | [] => [x]
  | y :: l' => if fgt (snd y) (snd x) then y :: insert_desc x l' else x :: l
  end.

Definition sorted_by_value_desc (items : list (string * pyfloat))
  : list (string * pyfloat) :=
  fold_right insert_desc [] items.

(** Two entries in the order the sort leaves them. *)
Definition value_ge (a b : string * pyfloat) : Prop := (snd b <= snd a)%Q.

(** [max(xs)] on a non-empty sequence whose first element is [m]: the
    running maximum is replaced only by a strictly greater element, so the
    first maximal element is returned. *)
Fixpoint max_from {A : Type} (gt : A -> A -> bool) (m : A) (xs : list A) : A :=
  match xs with
  | [] => m
  | x :: xs' => max_from gt (if gt x m then x else m) xs'
  end.

(** The frame with the three new columns and [article_id] assigned. *)
Fixpoint add_columns (df : list tc_row) (c1 : list (Dict.t pyfloat))
  (c2 : list (list string)) (c3 : list (Dict.t pyfloat)) (id : string)
  : list stage2_row :=
  match df, c1, c2, c3 with
  | r :: df', a :: c1', b :: c2', c :: c3' =>
      Stage2Row r a b c id :: add_columns df' c1' c2' c3' id
  | _, _, _, _ => []
  end.

Section Stage2.
(** The cached classification pipeline, [round(x, 4)] and float
    subtraction. *)
Variable clf_pipeline : string -> result (list (list label_score)).
Variable round4 : pyfloat -> pyfloat.
Variable fsub : pyfloat -> pyfloat -> pyfloat.

Definition input_text (example : tc_row) : string :=
  "Entity: " ++ entity_mention example ++ newline ++
  "Main Role: " ++ p_main_role example ++ newline ++
  "Context: " ++ context example.

(** The comprehension
    [{s['label']: round(s['score'], 4) for s in scores if s['score'] > threshold}]. *)
Definition filtered_scores (scores : list label_score) (threshold : pyfloat)
  : Dict.t pyfloat :=
  Dict.of_items
    (map (fun s => (label s, round4 (score s)))
         (filter (fun s => fgt (score s) threshold) scores)).

(** Only the classifier call and its indexing are inside the [try]; the
    handler prints one line and returns [{}]. *)
Definition pipeline_with_confidence (example : tc_row) (threshold : pyfloat)
  : M (Dict.t pyfloat) :=
  (r <- try_except
          (all <- lift (clf_pipeline (input_text example)) ;;
           scores <- lift (getitem0 all) ;;
           ret (inl scores))
          (fun e =>
             print ("Error in pipeline: " ++ exn_str e) ;;;
             ret (inr Dict.empty)) ;;
   match r with
   | inr d => ret d
   | inl scores =>
       ret (Dict.of_items
              (sorted_by_value_desc
                 (Dict.items (filtered_scores scores threshold))))
   end)%py.

(** [if not scores: return []], then [top_score = max(scores.values())] on
    values that are not empty. *)
Definition select_roles_within_margin (scores : Dict.t pyfloat)
  (margin : pyfloat) : list string :=
  match Dict.values scores with
  | [] => []
  | v :: vs =>
      let top_score := max_from fgt v vs in
      map fst
        (filter (fun rs => fge (snd rs) (fsub top_score margin))
                (Dict.items scores))
  end.

(** [{role: scores[role] for role in margin_roles if role in scores}] on
    the two columns of a row. *)
Definition filter_scores_by_margin (scores : Dict.t pyfloat)
  (margin_roles : list string) : Dict.t pyfloat :=
  Dict.of_items
    (flat_map (fun role =>
                 match Dict.get role scores with
                 | Some v => [(role, v)]
                 | None => []
                 end) margin_roles).

(** [filter_scores_by_margin(row)] as [df.apply] calls it: on a row of the
    frame, or on the placeholder row ([None]), whose NaN in
    [predicted_fine_margin] cannot be iterated. *)
Definition filter_scores_by_margin_row
  (row : option (Dict.t pyfloat * list string)) : M (Dict.t pyfloat) :=
  match row with
  | Some (scores, margin_roles) =>
      ret (filter_scores_by_margin scores margin_roles)
  | None => lift (Raise (Exception "'float' object is not iterable"))
  end.

(** [run_stage2_with_cached_model(article_id, clf_pipeline, df, threshold,
    margin)]: the three column assignments of lines 151-153 and the
    [article_id] column. *)
Definition run_stage2_with_cached_model (id : string) (df : list tc_row)
  (threshold margin : pyfloat) : M (list stage2_row) :=
  (applied1 <- apply_rows nan_tc_row
                 (fun ex => pipeline_with_confidence ex threshold) df ;;
   with_scores <- set_column "predicted_fine_with_scores" applied1 ;;
   let fine_margin :=
     map (fun sc => select_roles_within_margin sc margin) with_scores in
   applied3 <- apply_rows None filter_scores_by_margin_row
                 (map Some (combine with_scores fine_margin)) ;;
   w_conf <- set_column "p_fine_roles_w_conf" applied3 ;;
   ret (add_columns df with_scores fine_margin w_conf id))%py.

(** The call of line 303, with the default [threshold=0.01] and
    [margin=0.05]. *)
Definition run_stage2_default (id : string) (df : list tc_row)
  : M (list stage2_row) :=
  run_stage2_with_cached_model id df default_threshold default_margin.
End Stage2.

(** The decimal number [round(x, 4)] stands for (ties to even), and exact
    subtraction: the two float operations without their final rounding to a
    double. *)
Definition round4_decimal (x : pyfloat) : pyfloat :=
  let a := (Qnum x * 10000)%Z in
  let d := Zpos (Qden x) in
  let q := (a / d)%Z in
  let r := (a mod d)%Z in
  let n := match (2 * r ?= d)%Z with
           | Lt => q
           | Gt => (q + 1)%Z
           | Eq => if Z.even q then q else (q + 1)%Z
           end in
  n # 10000.

Definition fsub_exact (a b : pyfloat) : pyfloat := a - b.

(** ** Stage 1: entity spans *)

(** Text is a sequence of code points. *)
Definition pystr : Type := list N.

Definition codes (s : string) : pystr :=
  map N_of_ascii (list_ascii_of_string s).

(** The code points that [str.strip], [lstrip] and [rstrip] remove. *)
Definition isspace (c : N) : bool :=
  ((9 <=? c) && (c <=? 13) || (28 <=? c) && (c <=? 32) ||
   (c =? 133) || (c =? 160) || (c =? 5760) ||
   (8192 <=? c) && (c <=? 8202) ||
   (c =? 8232) || (c =? 8233) || (c =? 8239) || (c =? 8287) ||
   (c =? 12288))%N.

Fixpoint lstrip (s : pystr) : pystr :=
  match s with
  | [] => []
  | c :: s' => if isspace c then lstrip s' else s
  end.

Definition rstrip (s : pystr) : pystr := rev (lstrip (rev s)).

Definition all_space (s : pystr) : Prop :=
  Forall (fun c => isspace c = true) s.

Definition strip (s : pystr) : pystr := rstrip (lstrip s).

Definition len (s : pystr) : Z := Z.of_nat (List.length s).

(** A slice bound: a negative index counts from the end, and every index is
    clamped to the sequence. *)
Definition slice_bound (n i : Z) : Z :=
  (if i <? 0 then Z.max 0 (i + n) else Z.min i n)%Z.

(** [s[i:j]] *)
Definition slice (s : pystr) (i j : Z) : pystr :=
  let lo := slice_bound (len s) i in
  let hi := slice_bound (len s) j in
  firstn (Z.to_nat (hi - lo)) (skipn (Z.to_nat lo) s).

(** [s.replace(a, b)] for one-character [a] and [b]. *)
Definition replace1 (a b : N) (s : pystr) : pystr :=
  map (fun c => if (c =? a)%N then b else c) s.

(** A span as [bert_model.predict(text, return_format='spans')] gives it. *)
Record span : Type := Span {
  start : Z;
  end_ : Z;
  prob_antagonist : pyfloat;
  prob_protagonist : pyfloat;
  prob_innocent : pyfloat;
  prob_unknown : pyfloat
}.

(** [a > b] on [(float, str)] tuples: lexicographic. *)
Definition tuple_gt (a b : pyfloat * string) : bool :=
  if feq (fst a) (fst b) then String.ltb (snd b) (snd a)
  else fgt (fst a) (fst b).

(** The body of the loop over [spans]: the element appended to
    [pred_spans].  [max(role_probs)] starts from the first tuple of the
    list. *)
Definition trim_span (text : pystr) (sp : span) : Z * Z * string :=
  let s := start sp in
  let e := end_ sp in
  let seg := slice text s e in
  let s := (s + (len seg - len (lstrip seg)))%Z in
  let e := (e - (len seg - len (rstrip seg)))%Z in
  let role_probs := [(prob_protagonist sp, "Protagonist");
                     (prob_innocent sp, "Innocent");
                     (prob_unknown sp, "Unknown")] in
  let role := snd (max_from tuple_gt (prob_antagonist sp, "Antagonist")
                            role_probs) in
  (s, e, role).

(** One line of the predictions file, [id \t entity_text \t s \t e \t role],
    kept as its five fields. *)
Record prediction : Type := Prediction {
  pred_article_id : string;
  pred_entity_text : pystr;
  pred_start : Z;
  pred_end : Z;
  pred_role : string
}.

Definition output_line (id : string) (text : pystr) (p : Z * Z * string)
  : prediction :=
  let '(s, e, role) := p in
  Prediction id (strip (replace1 13 32 (replace1 10 32 (slice text s e))))
             s e role.

(** [predict_with_cached_model]: the pair [(output_lines, non_unknown)]; the
    two files written hold the same lines. *)
Definition predict_with_cached_model (id : string)
  (bert_model : pystr -> list span) (text : pystr)
  : list prediction * nat :=
  let spans := bert_model text in
  let pred_spans := map (trim_span text) spans in
  let output_lines := map (output_line id text) pred_spans in
  let non_unknown :=
    List.length (filter (fun p => negb (String.eqb (snd p) "Unknown"))
                        pred_spans) in
  (output_lines, non_unknown).

(** ** Model availability at start-up *)

(** [load_ner_model] and [load_stage2_model]: a loader that raises yields
    [None]. *)
Definition load_model {A} (loader : result A) : option A :=
  match loader with Ok m => Some m | Raise _ => None end.

Definition is_none {A} (o : option A) : bool :=
  match o with None => true | Some _ => false end.

(** The four branches of the [if]/[elif]/[elif]/[else] chain. *)
Inductive startup_branch : Type :=
| BothLoaded | NerFailed | Stage2Failed | ElseBranch.

Definition startup_check {A B} (NER_MODEL : option A) (STAGE2_MODEL : option B)
  : startup_branch :=
  if negb (is_none NER_MODEL) && negb (is_none STAGE2_MODEL) then BothLoaded
  else if is_none NER_MODEL then NerFailed
  else if is_none STAGE2_MODEL then Stage2Failed
  else ElseBranch.

Definition PREDICTION_AVAILABLE (b : startup_branch) : bool :=
  match b with BothLoaded => true | _ => false end.

Definition prediction_error (b : startup_branch) : option string :=
  match b with
  | BothLoaded => None
  | NerFailed => Some "NER model failed to load"
  | Stage2Failed => Some "Stage 2 model failed to load"
  | ElseBranch => Some "Both models failed to load"
  end.

(** ** Labels and the role filter *)

(** The values a mention record holds. *)
Inductive pyval : Type :=
| VNone
| VStr (s : string)
| VInt (z : Z)
| VFloat (q : pyfloat)
| VStrList (l : list string).

Definition mention : Type := Dict.t pyval.

(** [m.get("main_role") in role_filter] for a filter of role names: a
    missing key gives [None], which no role name equals. *)
Definition role_enabled (role_filter : list string) (m : mention) : bool :=
  match Dict.get "main_role" m with
  | Some (VStr r) => existsb (String.eqb r) role_filter
  | _ => false
  end.

Definition filter_labels_by_role (labels : Dict.t (list mention))
  (role_filter : list string) : Dict.t (list mention) :=
  fold_left
    (fun filtered em =>
       let filtered_mentions := filter (role_enabled role_filter) (snd em) in
       match filtered_mentions with
       | [] => filtered
       | _ :: _ => Dict.set (fst em) filtered_mentions filtered
       end)
    (Dict.items labels) Dict.empty.

(** [if filtered_mentions:], on an entry of the mapping. *)
Definition nonempty_entry (em : string * list mention) : bool :=
  match snd em with [] => false | _ :: _ => true end.

(** ** The sentence loops of section 5 *)

Section SentenceLoops.
(** [format_sentence_with_spans] of [render_text] and the type of its
    accumulator. *)
Variable Seen : Type.
Variable format_sentence_with_spans :
  string -> Dict.t (list mention) -> pyfloat -> bool -> bool ->
  option Seen -> string * option Seen.

Variable labels : Dict.t (list mention).
Variable role_filter : list string.
Variable threshold : pyfloat.
Variable hide_repeat : bool.

(** What one iteration does: the call, with the accumulator it passes, and
    the block it shows ([st.markdown] or [st_html]). *)
Inductive event : Type :=
| EvFormat (sent : string) (compact : bool) (seen : option Seen)
| EvShow (html_block : string).

(** The loop body; the state is [seen_fine_roles] and the events so far. *)
Definition loop_body (compact : bool) (st : option Seen * list event)
  (sent : string) : option Seen * list event :=
  let '(html_block, seen') :=
    format_sentence_with_spans sent
      (filter_labels_by_role labels role_filter)
      threshold hide_repeat compact (fst st) in
  (seen', (snd st ++ [EvFormat sent compact (fst st); EvShow html_block])%list).

(** [seen_fine_roles = None] followed by the [for] loop. *)
Definition render_session (compact : bool) (sents : list string)
  : option Seen * list event :=
  fold_left (loop_body compact) sents (None, []).

(** Lines 542-545: the sentences of a main role. *)
Definition render_role_sentences := render_session false.
(** Lines 561-564: the sentences of the selected fine role. *)
Definition render_fine_sentences := render_session true.

(** The calls of a trace, each with the accumulator it received. *)
Fixpoint calls_of (tr : list event) : list (string * option Seen) :=
  match tr with
  | [] => []
  | EvFormat sent _ seen :: tr' => (sent, seen) :: calls_of tr'
  | EvShow _ :: tr' => calls_of tr'
  end.

(** [threaded compact a calls z]: starting with accumulator [a], every call
    receives what the call before it returned, and the last returns [z]. *)
Inductive threaded (compact : bool)
  : option Seen -> list (string * option Seen) -> option Seen -> Prop :=
| threaded_nil a : threaded compact a [] a
| threaded_cons a sent calls z :
    threaded compact
      (snd (format_sentence_with_spans sent
              (filter_labels_by_role labels role_filter)
              threshold hide_repeat compact a)) calls z ->
    threaded compact a ((sent, a) :: calls) z.
End SentenceLoops.
Arguments EvFormat {Seen} sent compact seen.
Arguments EvShow {Seen} html_block.

(** ** The document annotator of [render_text] *)

Module RenderText.

(** Modelled from the spec: the data model of section 3, for the annotator
    of [render_text], which [Home.py] imports. *)

(** The main role, a closed enumeration. *)
Inductive MainRole : Type := Protagonist | Antagonist | Innocent | Unknown.

(** One occurrence of an entity: display text, half-open offsets, main
    role, the fine roles within margin and the confidence of each. *)
Record Mention : Type := MkMention {
  entity : string;
  m_start : Z;
  m_end : Z;
  role : MainRole;
  fine_roles : list string;
  confidence : Dict.t pyfloat
}.

(** Modelled from the spec: the HTML-escaped form of a character (the spec
    names no escaping function of its own), as [html.escape] gives it. *)
Definition escape_char (c : N) : pystr :=
  (if c =? 38 then codes "&amp;"
   else if c =? 60 then codes "&lt;"
   else if c =? 62 then codes "&gt;"
   else if c =? 34 then codes "&quot;"
   else if c =? 39 then codes "&#x27;"
   else [c])%N.

(** Modelled from the spec: the HTML-escaped form of a text. *)
Definition html_escape (s : pystr) : pystr := flat_map escape_char s.

Section Annotator.
(** The role colour table and the tag syntax of an annotated span (given
    the colour, the tooltip entries and the escaped text) are external to
    the annotator. *)
Variable role_color : MainRole -> string.
Variable span_markup :
  string -> list (string * pyfloat) -> pystr -> pystr.

Variable text : pystr.
Variable mentions : list Mention.
Variable hide_repeat : bool.

(** Offsets clamped to the text. *)
Definition clamp_start (m : Mention) : Z := Z.max 0 (m_start m).
Definition clamp_end (m : Mention) : Z := Z.min (m_end m) (len text).
Definition extent (m : Mention) : Z := (clamp_end m - clamp_start m)%Z.

(** A mention can be rendered at [pos] when its clamped range is not
    empty and begins there, and it is not a suppressed repeat. *)
Definition begins_at (pos : nat) (seen : list string) (m : Mention)
  : bool :=
  (0 <? extent m)%Z && (clamp_start m =? Z.of_nat pos)%Z &&
  negb (hide_repeat && existsb (String.eqb (entity m)) seen).

(** Among the ranges that begin at [pos]: the longest, the first in input
    order among equals. *)
Definition select_mention (pos : nat) (seen : list string)
  : option Mention :=
  match filter (begins_at pos seen) mentions with
  | [] => None
  | m :: ms =>
      Some (max_from (fun a b => (extent b <? extent a)%Z) m ms)
  end.

(** The tooltip: fine roles with their confidence, by decreasing
    confidence. *)
Definition tooltip (m : Mention) : list (string * pyfloat) :=
  sorted_by_value_desc
    (filter (fun rc => existsb (String.eqb (fst rc)) (fine_roles m))
            (Dict.items (confidence m))).

(** Modelled from the spec: the left-to-right scan of
    [render_text.reformat_text_html_with_tooltips] (the spec's
    [annotate_document]), whose source is not part of [Home.py].  [rest] is
    the text from [pos] on, [skip] the number of characters still covered by
    the span emitted last, [seen] the entity texts annotated so far. *)
Fixpoint scan (pos : nat) (rest : pystr) (skip : nat) (seen : list string)
  : pystr :=
  match rest with
  | [] => []
  | c :: rest' =>
      match skip with
      | S k => scan (S pos) rest' k seen
      | O =>
          match select_mention pos seen with
          | Some m =>
              let n := Z.to_nat (extent m) in
              (span_markup (role_color (role m)) (tooltip m)
                           (html_escape (firstn n rest))
                 ++ scan (S pos) rest' (Nat.pred n) (entity m :: seen))%list
          | None =>
              (escape_char c ++ scan (S pos) rest' 0 seen)%list
          end
      end
  end.

(** Modelled from the spec: [render_text.reformat_text_html_with_tooltips],
    the operation [annotate_document(text, mentions, hide_repeat)] of
    section 4.1; [Home.py] only imports and calls it. *)
Definition annotate_document : pystr := scan 0 text 0 [].
End Annotator.
End RenderText.

(** ** Sample data *)

(** A classifier that gives every mention the same three scores. *)
Definition sample_clf (_ : string) : result (list (list label_score)) :=
  Ok [[LabelScore "Victim" (1 # 10); LabelScore "Martyr" (1 # 2);
       LabelScore "Guardian" (9 # 10)]].

Definition sample_row : tc_row :=
  TcRow "Alice" "Innocent" "Alice was hurt.".

(** An extractor that returns one span over [" Bob "] and one over a blank. *)
Definition sample_text : pystr := codes "Alice met Bob .".

Definition sample_bert (_ : pystr) : list span :=
  [Span 9 14 (7 # 10) (1 # 10) (1 # 10) (1 # 10);
   Span 5 6 (1 # 4) (1 # 4) (1 # 4) (1 # 4)].

(** Two entities, one of them with a mention of each of two roles. *)
Definition sample_mention (role : string) (s e : Z) : mention :=
  [("main_role", VStr role); ("start_offset", VInt s); ("end_offset", VInt e);
   ("fine_roles", VStrList ["Guardian"]); ("confidence", VFloat (9 # 10))].

Definition sample_labels : Dict.t (list mention) :=
  [("Alice", [sample_mention "Protagonist" 0 5;
              sample_mention "Innocent" 20 25]);
   ("Bob", [sample_mention "Antagonist" 10 13])].

(** A sentence formatter that counts the sentences it has seen. *)
Definition sample_format (sent : string) (_ : Dict.t (list mention))
  (_ : pyfloat) (_ _ : bool) (seen : option nat) : string * option nat :=
  (sent, Some (match seen with None => 1%nat | Some n => S n end)).

(** A colour table and a tag syntax for annotated spans. *)
Definition sample_color (r : RenderText.MainRole) : string :=
  match r with
  | RenderText.Protagonist => "green"
  | RenderText.Antagonist => "red"
  | RenderText.Innocent => "blue"
  | RenderText.Unknown => "gray"
  end.

Definition sample_markup (color : string) (_ : list (string * pyfloat))
  (inner : pystr) : pystr :=
  (codes "<span class='" ++ codes color ++ codes "'>" ++ inner
     ++ codes "</span>")%list.

(** ** Stage 2 in closed form *)

Section Stage2ClosedForm.
Variable clf_pipeline : string -> result (list (list label_score)).
Variable round4 : pyfloat -> pyfloat.
Variable fsub : pyfloat -> pyfloat -> pyfloat.

(** The score mapping of a row: from the first list of the classifier's
    answer, or empty when the call or the indexing raises. *)
Definition row_scores (threshold : pyfloat) (ex : tc_row) : Dict.t pyfloat :=
  match clf_pipeline (input_text ex) with
  | Ok (scores :: _) =>
      sorted_by_value_desc (filtered_scores round4 scores threshold)
  | Ok [] => Dict.empty
  | Raise _ => Dict.empty
  end.

(** The line a row prints, if any. *)
Definition row_log (ex : tc_row) : list string :=
  match clf_pipeline (input_text ex) with
  | Ok (_ :: _) => []
  | Ok [] => ["Error in pipeline: list index out of range"]
  | Raise e => ["Error in pipeline: " ++ exn_str e]
  end.

(** The row of the result for a row of the input. *)
Definition row_result (id : string) (threshold margin : pyfloat) (ex : tc_row)
  : stage2_row :=
  let sc := row_scores threshold ex in
  let roles := select_roles_within_margin fsub sc margin in
  Stage2Row ex sc roles (filter_scores_by_margin sc roles) id.
End Stage2ClosedForm.

(** ** The sentences of a role column (lines 530-545) *)

(** The columns of [df_f] that the role columns read. *)
Record framing_row : Type := FramingRow {
  sentence : string;
  fine_roles : list string;
  main_role : string
}.

(** [drop_duplicates()] and [unique()]: the first occurrence of every value,
    in order; [seen] holds the values met so far. *)
Fixpoint unique_from {A : Type} (eqb : A -> A -> bool) (seen l : list A)
  : list A :=
  match l with
  | [] => []
  | x :: l' =>
      if existsb (eqb x) seen then unique_from eqb seen l'
      else x :: unique_from eqb (x :: seen) l'
  end.

Definition unique {A : Type} (eqb : A -> A -> bool) (l : list A) : list A :=
  unique_from eqb [] l.

(** Equality of tuples of strings, and of [(sentence, fine_roles)] rows. *)
Fixpoint tuple_eqb (a b : list string) : bool :=
  match a, b with
  | [], [] => true
  | x :: a', y :: b' => String.eqb x y && tuple_eqb a' b'
  | _, _ => false
  end.

Definition sentence_row_eqb (a b : string * list string) : bool :=
  String.eqb (fst a) (fst b) && tuple_eqb (snd a) (snd b).

(** [role_sentences]: the rows of the role, cut to the two columns, without
    duplicates. *)
Definition role_sentences (df_f : list framing_row) (role : string)
  : list (string * list string) :=
  unique sentence_row_eqb
    (map (fun r => (sentence r, fine_roles r))
         (filter (fun r => String.eqb (main_role r) role) df_f)).

(** [role_sentences['sentence'].unique()] *)
Definition role_sentence_list (df_f : list framing_row) (role : string)
  : list string :=
  unique String.eqb (map fst (role_sentences df_f role)).

(** ** The bias of the NER classifier (lines 37-42) *)

(** [bert_model.label2id.get('O', 0)] *)
Definition o_index (label2id : Dict.t Z) : Z :=
  match Dict.get "O" label2id with Some i => i | None => 0%Z end.

(** [l[i] = v] for an index inside the list. *)
Definition setitem {A : Type} (l : list A) (i : nat) (v : A) : list A :=
  (firstn i l ++ v :: skipn (S i) l)%list.

Section Bias.
(** Addition of the tensor's floats. *)
Variable fadd : pyfloat -> pyfloat -> pyfloat.

(** One iteration: [if i != o_index: current_bias[i] += 1.0]. *)
Definition add_bias_step (o : Z) (current_bias : list pyfloat) (i : nat)
  : list pyfloat :=
  if (Z.of_nat i =? o)%Z then current_bias
  else match nth_error current_bias i with
       | Some b => setitem current_bias i (fadd b 1)
       | None => current_bias
       end.

(** [for i in range(len(current_bias)): ...] *)
Definition add_bias (label2id : Dict.t Z) (current_bias : list pyfloat)
  : list pyfloat :=
  fold_left (add_bias_step (o_index label2id))
            (seq 0 (List.length current_bias)) current_bias.
End Bias.

(** ** The list of detected entities (lines 317-349) *)

(** The [if]/[elif] chain on [role] that picks the probability to show. *)
Definition role_confidence (sp : span) (role : string) : option pyfloat :=
  if String.eqb role "Protagonist" then Some (prob_protagonist sp)
  else if String.eqb role "Antagonist" then Some (prob_antagonist sp)
  else if String.eqb role "Innocent" then Some (prob_innocent sp)
  else if String.eqb role "Unknown" then Some (prob_unknown sp)
  else None.

(** The search through [entity_spans] for the offsets of a prediction: the
    first span with these offsets decides, and ends the search. *)
Fixpoint find_confidence (entity_spans : list span) (s e : Z) (role : string)
  : option pyfloat :=
  match entity_spans with
  | [] => None
  | sp :: rest =>
      if (start sp =? s)%Z && (end_ sp =? e)%Z then role_confidence sp role
      else find_confidence rest s e role
  end.

(** ** The prediction lines (lines 106 and 323-337) *)

Definition tab : N := 9%N.

(** [str(n)] of an integer: its decimal digits, after a minus sign when it
    is negative. *)
Definition str_of_Z (z : Z) : pystr :=
  codes (NilZero.string_of_int (Z.to_int z)).

(** [s.split(sep)] for a separator of one character. *)
Fixpoint split (sep : N) (s : pystr) : list pystr :=
  match s with
  | [] => [[]]
  | c :: s' =>
      if (c =? sep)%N then [] :: split sep s'
      else match split sep s' with
           | f :: fs => (c :: f) :: fs
           | [] => [[c]]
           end
  end.

Fixpoint pystr_eqb (a b : pystr) : bool :=
  match a, b with
  | [], [] => true
  | x :: a', y :: b' => (x =? y)%N && pystr_eqb a' b'
  | _, _ => false
  end.

(** The [if]/[elif] chain on the [role] field of a line. *)
Definition role_field_confidence (sp : span) (role : pystr) : option pyfloat :=
  if pystr_eqb role (codes "Protagonist") then Some (prob_protagonist sp)
  else if pystr_eqb role (codes "Antagonist") then Some (prob_antagonist sp)
  else if pystr_eqb role (codes "Innocent") then Some (prob_innocent sp)
  else if pystr_eqb role (codes "Unknown") then Some (prob_unknown sp)
  else None.

Section PredictionLines.
(** [int(s)] on a string. *)
Variable py_int : pystr -> result Z.

(** [f"{article_id}\t{entity_text}\t{s}\t{e}\t{role}"] *)
Definition format_line (p : prediction) : pystr :=
  (codes (pred_article_id p) ++ tab :: pred_entity_text p
     ++ tab :: str_of_Z (pred_start p) ++ tab :: str_of_Z (pred_end p)
     ++ tab :: codes (pred_role p))%list.

(** The loop over [entity_spans] for one line: [int(start)] is evaluated for
    every span, [int(end)] only when the start matches; the first span with
    both offsets decides. *)
Fixpoint search_spans (entity_spans : list span) (start_ end_f role : pystr)
  : result (option pyfloat) :=
  match entity_spans with
  | [] => Ok None
  | sp :: rest =>
      match py_int start_ with
      | Raise e => Raise e
      | Ok s =>
          if (start sp =? s)%Z then
            match py_int end_f with
            | Raise e => Raise e
            | Ok e =>
                if (end_ sp =? e)%Z then Ok (role_field_confidence sp role)
                else search_spans rest start_ end_f role
            end
          else search_spans rest start_ end_f role
      end
  end.

(** [text_id, entity, start, end, role = pred.split('\t')], then the search;
    the unpacking raises [ValueError] unless there are five fields. *)
Definition entity_confidence (entity_spans : list span) (pred : pystr)
  : result (option pyfloat) :=
  match split tab pred with
  | [_; _; start_; end_f; role] =>
      search_spans entity_spans start_ end_f role
  | _ :: _ :: _ :: _ :: _ :: _ :: _ =>
      Raise (Exception "too many values to unpack (expected 5)")
  | [_; _; _; _] =>
      Raise (Exception "not enough values to unpack (expected 5, got 4)")
  | [_; _; _] =>
      Raise (Exception "not enough values to unpack (expected 5, got 3)")
  | [_; _] =>
      Raise (Exception "not enough values to unpack (expected 5, got 2)")
  | [_] =>
      Raise (Exception "not enough values to unpack (expected 5, got 1)")
  | [] =>
      Raise (Exception "not enough values to unpack (expected 5, got 0)")
  end.
End PredictionLines.

(** [int(s)] on the strings that are a decimal numeral, as an instance. *)
Definition string_of_codes (s : pystr) : option string :=
  if forallb (fun c => (c <? 256)%N) s
  then Some (string_of_list_ascii (map ascii_of_N s))
  else None.

Definition int_of_decimal (s : pystr) : result Z :=
  match string_of_codes s with
  | Some str =>
      match NilZero.int_of_string str with
      | Some d => Ok (Z.of_int d)
      | None => Raise (Exception "invalid literal for int() with base 10")
      end
  | None => Raise (Exception "invalid literal for int() with base 10")
  end.

(** ** The list of fine-grained roles (lines 354-382) *)

Section FineRoleDisplay.
(** [str(x)] of a float, as the f-string inserts it. *)
Variable str_float : pyfloat -> string.

(** The default of [fine_scores.get], an em dash (U+2014) in UTF-8. *)
Definition em_dash : string :=
  String (ascii_of_nat 226)
    (String (ascii_of_nat 128) (String (ascii_of_nat 148) EmptyString)).

(** [", ".join(f"{role}: confidence = {fine_scores.get(role, dash)}" ...)
    if fine_roles else "None"], for a row that holds a list and a dict. *)
Definition formatted_roles (fine_roles : list string)
  (fine_scores : Dict.t pyfloat) : string :=
  match fine_roles with
  | [] => "None"
  | _ :: _ =>
      String.concat ", "
        (map (fun role =>
                role ++ ": confidence = " ++
                match Dict.get role fine_scores with
                | Some v => str_float v
                | None => em_dash
                end) fine_roles)
  end.
End FineRoleDisplay.

(** ** The warning when prediction is unavailable (line 424) *)

(** [prediction_error if prediction_error else 'Models not loaded']: [None]
    and the empty string are false. *)
Definition warning_detail (error : option string) : string :=
  match error with
  | None => "Models not loaded"
  | Some "" => "Models not loaded"
  | Some e => e
  end.

(** ** [escape_entity] *)

(** The class [[.^$*+?{}\[\]\\|()]]. *)
Definition is_regex_meta (c : N) : bool :=
  existsb (N.eqb c) [46; 94; 36; 42; 43; 63; 123; 125; 91; 93; 92; 124; 40; 41]%N.

(** [re.sub(r'([.^$*+?{}\[\]\\|()])', r'\\\1', entity)]: a backslash goes
    before every character of the class. *)
Definition escape_entity (entity : pystr) : pystr :=
  flat_map (fun c => if is_regex_meta c then [92%N; c] else [c]) entity.

(** ** The grid of role columns (lines 520-527) *)

(** [2 if len(main_roles) > 1 else 1] *)
Definition cols_per_row (n : Z) : Z := if (1 <? n)%Z then 2%Z else 1%Z.

(** The number of rows, [(len(main_roles) + cols_per_row - 1) // cols_per_row]. *)
Definition grid_rows (n : Z) : Z :=
  ((n + cols_per_row n - 1) / cols_per_row n)%Z.

(** The indices in [role_cols[idx // cols_per_row][idx % cols_per_row]]. *)
Definition grid_cell (n idx : Z) : Z * Z :=
  ((idx / cols_per_row n)%Z, (idx mod cols_per_row n)%Z).

(* ====================================================================== *)
(** * Part II: properties                                                  *)
(* ====================================================================== *)

Unset Implicit Arguments.
Local Open Scope list_scope.

(** ** Floats *)

Lemma fgt_true a b : fgt a b = true <-> (b < a)%Q.
Proof.
  unfold fgt. rewrite negb_true_iff.
  destruct (Qle_bool a b) eqn:E.
  - apply Qle_bool_iff in E. split; [discriminate | intro H].
    exfalso. exact (Qlt_not_le _ _ H E).
  - split; [intros _ | reflexivity].
    apply Qnot_le_lt. intro H. apply Qle_bool_iff in H. congruence.
Qed.

Lemma fgt_false a b : fgt a b = false <-> (a <= b)%Q.
Proof.
  unfold fgt. rewrite negb_false_iff. apply Qle_bool_iff.
Qed.

Lemma fge_true a b : fge a b = true <-> (b <= a)%Q.
Proof. unfold fge. apply Qle_bool_iff. Qed.

(** ** Dictionaries *)

Module DictFacts.
Section Facts.
Context {V : Type}.
Implicit Types (d : Dict.t V) (k : string) (v : V)
(items : list (string * V)).

Lemma get_In k v d : Dict.get k d = Some v -> In (k, v) d.
Proof.
induction d as [|[k' v'] d IH]; simpl; [discriminate|].
destruct (String.eqb_spec k k') as [->|_].
- intros [= ->]. now left.
- intro H. right. auto.
Qed.

Lemma get_None k d : Dict.get k d = None <-> ~ In k (Dict.keys d).
Proof.
induction d as [|[k' v'] d IH]; simpl.
- tauto.
- destruct (String.eqb_spec k k') as [->|Hne].
  + split; [discriminate | intro H; exfalso; apply H; now left].
  + rewrite IH. split; intro H.
    * intros [E|E]; [congruence | tauto].
    * intro E. apply H. now right.
Qed.

Lemma In_get k v d : Dict.wf d -> In (k, v) d -> Dict.get k d = Some v.
Proof.
unfold Dict.wf, Dict.keys.
induction d as [|[k' v'] d IH]; simpl; [tauto|].
intros Hnd [E|Hin]; inversion Hnd as [|? ? Hni Hnd']; subst.
- injection E as -> ->. now rewrite String.eqb_refl.
- destruct (String.eqb_spec k k') as [->|_]; [|auto].
  exfalso. apply Hni. change k' with (fst (k', v)). now apply in_map.
Qed.

Lemma set_fresh k v d :
~ In k (Dict.keys d) -> Dict.set k v d = (d ++ [(k, v)])%list.
Proof.
induction d as [|[k' v'] d IH]; simpl; [reflexivity|].
intro H. destruct (String.eqb_spec k k') as [->|_].
- exfalso. apply H. now left.
- rewrite IH; [reflexivity | tauto].
Qed.

Lemma keys_set k v d :
Dict.keys (Dict.set k v d) =
if Dict.contains k d then Dict.keys d else (Dict.keys d ++ [k])%list.
Proof.
unfold Dict.contains.
induction d as [|[k' v'] d IH]; simpl; [reflexivity|].
destruct (String.eqb_spec k k') as [->|_]; simpl; [reflexivity|].
rewrite IH. now destruct (Dict.get k d).
Qed.

Lemma contains_true k d : Dict.contains k d = true <-> In k (Dict.keys d).
Proof.
unfold Dict.contains. destruct (Dict.get k d) eqn:E.
- split; [intros _ | reflexivity].
  apply get_In in E. change k with (fst (k, v)). now apply in_map.
- apply get_None in E. split; [discriminate | tauto].
Qed.

Lemma wf_set k v d : Dict.wf d -> Dict.wf (Dict.set k v d).
Proof.
unfold Dict.wf. intro H. rewrite keys_set.
destruct (Dict.contains k d) eqn:E; [assumption|].
assert (~ In k (Dict.keys d)) as Hni.
{ rewrite <- contains_true. congruence. }
clear E. induction (Dict.keys d) as [|a l IH]; simpl.
- constructor; [tauto | constructor].
- inversion H; subst. constructor.
  + rewrite in_app_iff. simpl in *. intuition congruence.
  + apply IH; simpl in *; tauto.
Qed.

Lemma wf_add_items items : forall d, Dict.wf d -> Dict.wf (Dict.add_items items d).
Proof.
induction items as [|[k v] items IH]; simpl; intros d H; [assumption|].
apply IH. now apply wf_set.
Qed.

Lemma wf_of_items items : Dict.wf (Dict.of_items items).
Proof. apply (wf_add_items items). constructor. Qed.

Lemma keys_add_items items : forall d k,
In k (Dict.keys (Dict.add_items items d)) <->
In k (Dict.keys d) \/ In k (map fst items).
Proof.
induction items as [|[k' v'] items IH]; simpl; intros d k; [tauto|].
rewrite IH, keys_set.
destruct (Dict.contains k' d) eqn:E.
- apply contains_true in E. split; [tauto|].
  intros [H|[H|H]]; subst; tauto.
- rewrite in_app_iff. simpl. tauto.
Qed.

Lemma keys_of_items items k :
In k (Dict.keys (Dict.of_items items)) <-> In k (map fst items).
Proof.
unfold Dict.of_items.
rewrite keys_add_items. simpl. tauto.
Qed.

(** Items with distinct keys are stored as they come. *)
Lemma add_items_distinct items : forall d,
NoDup (Dict.keys d ++ map fst items) ->
Dict.add_items items d = (d ++ items)%list.
Proof.
induction items as [|[k v] items IH]; simpl; intros d H.
- now rewrite app_nil_r.
- assert (~ In k (Dict.keys d)) as Hk.
  { apply NoDup_remove_2 in H. rewrite in_app_iff in H. tauto. }
  rewrite set_fresh by assumption.
  rewrite IH.
  + now rewrite <- app_assoc.
  + unfold Dict.keys in *. rewrite map_app, <- app_assoc. exact H.
Qed.

Lemma of_items_distinct items :
NoDup (map fst items) -> Dict.of_items items = items.
Proof.
intro H. unfold Dict.of_items.
now rewrite add_items_distinct.
Qed.
End Facts.
End DictFacts.

(** ** Sorting by decreasing value *)

Lemma insert_desc_perm x l : Permutation (insert_desc x l) (x :: l).
Proof.
  induction l as [|y l IH]; simpl; [reflexivity|].
  destruct (fgt (snd y) (snd x)); [|reflexivity].
  rewrite IH. apply perm_swap.
Qed.

Lemma sorted_by_value_desc_perm l : Permutation (sorted_by_value_desc l) l.
Proof.
  induction l as [|x l IH]; simpl; [reflexivity|].
  rewrite insert_desc_perm. now constructor.
Qed.

Lemma insert_desc_sorted x l :
  StronglySorted value_ge l -> StronglySorted value_ge (insert_desc x l).
Proof.
  induction 1 as [|y l Hs IH Hall]; simpl.
  - constructor; constructor.
  - destruct (fgt (snd y) (snd x)) eqn:E.
    + constructor; [assumption|].
      apply Forall_forall. intros z Hz.
      apply (Permutation_in _ (insert_desc_perm x l)) in Hz.
      destruct Hz as [<-|Hz].
      * apply fgt_true in E. now apply Qlt_le_weak.
      * rewrite Forall_forall in Hall. auto.
    + apply fgt_false in E.
      constructor; [now constructor|].
      constructor; [exact E|].
      apply Forall_forall. intros z Hz.
      rewrite Forall_forall in Hall.
      unfold value_ge. apply Qle_trans with (snd y); [now apply Hall | exact E].
Qed.

Lemma sorted_by_value_desc_sorted l :
  StronglySorted value_ge (sorted_by_value_desc l).
Proof.
  induction l as [|x l IH]; simpl; [constructor|].
  now apply insert_desc_sorted.
Qed.

Lemma values_sorted (l : Dict.t pyfloat) :
  StronglySorted value_ge l ->
  StronglySorted (fun a b => (b <= a)%Q) (Dict.values l).
Proof.
  induction 1 as [|y l Hs IH Hall]; simpl; constructor; [assumption|].
  apply Forall_forall. intros v Hv. apply in_map_iff in Hv.
  destruct Hv as [z [<- Hz]]. rewrite Forall_forall in Hall. now apply Hall.
Qed.

(** Sorting the items of a dictionary and building a dictionary again gives
    the sorted items. *)
Lemma dict_of_sorted_items (d : Dict.t pyfloat) :
  Dict.wf d ->
  Dict.of_items (sorted_by_value_desc (Dict.items d)) =
  sorted_by_value_desc d.
Proof.
  intro H. apply DictFacts.of_items_distinct.
  apply Permutation_NoDup with (l := Dict.keys d); [|exact H].
  symmetry. apply Permutation_map, sorted_by_value_desc_perm.
Qed.

(** ** Stage 2 *)

Lemma filtered_scores_keys (round4 : pyfloat -> pyfloat) scores threshold l :
  In l (Dict.keys (filtered_scores round4 scores threshold)) <->
  exists s, In s scores /\ label s = l /\ (threshold < score s)%Q.
Proof.
  unfold filtered_scores. rewrite DictFacts.keys_of_items.
  rewrite map_map. simpl. rewrite in_map_iff.
  split; intros [s [H1 H2]]; exists s.
  - apply filter_In in H2. destruct H2 as [H2 H3].
    apply fgt_true in H3. tauto.
  - destruct H2 as [<- H2]. split; [reflexivity|].
    apply filter_In. split; [assumption|]. now apply fgt_true.
Qed.

Section PipelineFacts.
Variable clf_pipeline : string -> result (list (list label_score)).
Variable round4 : pyfloat -> pyfloat.

(** What [pipeline_with_confidence] returns when the classifier answers:
    the filtered scores, sorted. *)
Lemma pipeline_with_confidence_ok ex threshold scores rest out :
  clf_pipeline (input_text ex) = Ok (scores :: rest) ->
  pipeline_with_confidence clf_pipeline round4 ex threshold out =
  (Ok (sorted_by_value_desc (filtered_scores round4 scores threshold)), out).
Proof.
  intro H. unfold pipeline_with_confidence, bind, try_except, lift, ret.
  rewrite H. simpl. f_equal. f_equal.
  apply dict_of_sorted_items, DictFacts.wf_of_items.
Qed.

(** What it returns when the call or the indexing raises: the empty
    dictionary, after one printed line. *)
Lemma pipeline_with_confidence_raise ex threshold out :
  (exists e, clf_pipeline (input_text ex) = Raise e) \/
  clf_pipeline (input_text ex) = Ok [] ->
  exists line,
    pipeline_with_confidence clf_pipeline round4 ex threshold out =
    (Ok Dict.empty, (out ++ [line])%list).
Proof.
  unfold pipeline_with_confidence, bind, try_except, lift, ret, print.
  intros [[e H]|H]; rewrite H; simpl; eexists; reflexivity.
Qed.

Lemma pipeline_with_confidence_total ex threshold out :
  exists d out',
    pipeline_with_confidence clf_pipeline round4 ex threshold out =
    (Ok d, out').
Proof.
  destruct (clf_pipeline (input_text ex)) as [[|scores rest]|e] eqn:E.
  - destruct (pipeline_with_confidence_raise ex threshold out) as [l H];
      [now right | eauto].
  - rewrite (pipeline_with_confidence_ok _ threshold _ _ out E). eauto.
  - destruct (pipeline_with_confidence_raise ex threshold out) as [l H];
      [left; eauto | eauto].
Qed.
End PipelineFacts.

(** *** The threshold of [pipeline_with_confidence] *)

(** C1, as the code has it: when the classifier answers, a label is a key of
    the mapping returned by [pipeline_with_confidence] exactly when one of its
    scores is strictly greater than the threshold; a label whose scores are
    all equal to or below the threshold is left out. *)
Theorem pipeline_with_confidence_threshold
  (clf_pipeline : string -> result (list (list label_score)))
  (round4 : pyfloat -> pyfloat) (ex : tc_row) (threshold : pyfloat)
  (scores : list label_score) (rest : list (list label_score))
  (out : list string)
  (Hclf : clf_pipeline (input_text ex) = Ok (scores :: rest)) :
  exists d,
    pipeline_with_confidence clf_pipeline round4 ex threshold out = (Ok d, out) /\
    (forall l, In l (Dict.keys d) <->
               exists s, In s scores /\ label s = l /\ (threshold < score s)%Q) /\
    (forall l, (forall s, In s scores -> label s = l ->
                          (score s <= threshold)%Q) ->
               ~ In l (Dict.keys d)).
Proof.
  exists (sorted_by_value_desc (filtered_scores round4 scores threshold)).
  split; [now apply pipeline_with_confidence_ok with (rest := rest)|].
  assert (forall l,
    In l (Dict.keys (sorted_by_value_desc
                       (filtered_scores round4 scores threshold))) <->
    exists s, In s scores /\ label s = l /\ (threshold < score s)%Q) as Hkeys.
  { intro l.
    apply iff_trans with
      (2 := filtered_scores_keys round4 scores threshold l).
    unfold Dict.keys.
    pose proof (Permutation_map fst
      (sorted_by_value_desc_perm (filtered_scores round4 scores threshold)))
      as Hp.
    split; intro H.
    - exact (Permutation_in _ Hp H).
    - exact (Permutation_in _ (Permutation_sym Hp) H). }
  split; [exact Hkeys|].
  intros l Hall Hin. apply Hkeys in Hin.
  destruct Hin as [s [Hs [Hl Hlt]]].
  exact (Qlt_not_le _ _ Hlt (Hall s Hs Hl)).
Qed.

Lemma pipeline_with_confidence_threshold_witness :
  exists d,
    pipeline_with_confidence sample_clf round4_decimal sample_row (1 # 2) [] =
    (Ok d, []) /\
    (forall l, In l (Dict.keys d) <->
               exists s, In s [LabelScore "Victim" (1 # 10);
                               LabelScore "Martyr" (1 # 2);
                               LabelScore "Guardian" (9 # 10)] /\
                         label s = l /\ (1 # 2 < score s)%Q) /\
    (forall l, (forall s, In s [LabelScore "Victim" (1 # 10);
                                LabelScore "Martyr" (1 # 2);
                                LabelScore "Guardian" (9 # 10)] ->
                          label s = l -> (score s <= 1 # 2)%Q) ->
               ~ In l (Dict.keys d)).
Proof.
  apply (pipeline_with_confidence_threshold sample_clf round4_decimal
           sample_row (1 # 2) _ [] []).
  reflexivity.
Defined.

(** C1, as stated, fails: with the threshold 1/2, the label whose score is
    exactly 1/2 is not in the mapping. *)
Lemma threshold_boundary_is_excluded :
  (score (LabelScore "Martyr" (1 # 2)) == 1 # 2)%Q /\
  pipeline_with_confidence sample_clf round4_decimal sample_row (1 # 2) [] =
  (Ok [("Guardian", 9000 # 10000)], []) /\
  Dict.contains "Martyr" [("Guardian", 9000 # 10000)] = false.
Proof. repeat split. Qed.

(** *** The order of the returned mapping *)

(** C5: whatever the classifier does, [pipeline_with_confidence] returns a
    mapping, and its entries are enumerated by non-increasing confidence. *)
Theorem pipeline_with_confidence_descending
  (clf_pipeline : string -> result (list (list label_score)))
  (round4 : pyfloat -> pyfloat) (ex : tc_row) (threshold : pyfloat)
  (out : list string) :
  exists d out',
    pipeline_with_confidence clf_pipeline round4 ex threshold out =
    (Ok d, out') /\
    StronglySorted (fun a b => (b <= a)%Q) (Dict.values d).
Proof.
  destruct (clf_pipeline (input_text ex)) as [[|scores rest]|e] eqn:E.
  - destruct (pipeline_with_confidence_raise clf_pipeline round4 ex threshold
                out (or_intror E)) as [line H].
    rewrite H. do 2 eexists. split; [reflexivity | constructor].
  - rewrite (pipeline_with_confidence_ok clf_pipeline round4 ex threshold _ _
               out E).
    do 2 eexists. split; [reflexivity|].
    apply values_sorted, sorted_by_value_desc_sorted.
  - destruct (pipeline_with_confidence_raise clf_pipeline round4 ex threshold
                out (or_introl (ex_intro _ e E))) as [line H].
    rewrite H. do 2 eexists. split; [reflexivity | constructor].
Qed.

Example pipeline_with_confidence_sample :
  pipeline_with_confidence sample_clf round4_decimal sample_row
    default_threshold [] =
  (Ok [("Guardian", 9000 # 10000); ("Martyr", 5000 # 10000);
       ("Victim", 1000 # 10000)], []).
Proof. reflexivity. Qed.

(** *** The margin *)

Lemma max_from_fgt_spec xs : forall m,
  In (max_from fgt m xs) (m :: xs) /\
  forall x, In x (m :: xs) -> (x <= max_from fgt m xs)%Q.
Proof.
  induction xs as [|y xs IH]; intro m; simpl.
  - split; [now left|]. intros x [<-|[]]. apply Qle_refl.
  - destruct (IH (if fgt y m then y else m)) as [Hin Hge].
    split.
    + destruct Hin as [Hin|Hin]; [|now right; right].
      rewrite <- Hin. destruct (fgt y m); [right; now left | now left].
    + intros x Hx.
      assert (m <= max_from fgt (if fgt y m then y else m) xs)%Q as Hm.
      { destruct (fgt y m) eqn:E.
        - apply fgt_true in E.
          apply Qle_trans with y; [now apply Qlt_le_weak|].
          apply Hge. now left.
        - apply Hge. now left. }
      assert (y <= max_from fgt (if fgt y m then y else m) xs)%Q as Hy.
      { destruct (fgt y m) eqn:E.
        - apply Hge. now left.
        - apply fgt_false in E. now apply Qle_trans with m. }
      destruct Hx as [<-|[<-|Hx]]; [assumption | assumption |].
      apply Hge. now right.
Qed.

(** The selected roles are the keys of the entries that pass a test on the
    score; for a non-empty mapping the test is [score >= top - margin] with
    [top] the greatest score. *)
Lemma select_roles_within_margin_filter
  (fsub : pyfloat -> pyfloat -> pyfloat) (scores : Dict.t pyfloat) margin :
  exists keep : pyfloat -> bool,
    select_roles_within_margin fsub scores margin =
    map fst (filter (fun rs => keep (snd rs)) scores) /\
    (scores <> Dict.empty ->
     exists top, In top (Dict.values scores) /\
                 (forall v, In v (Dict.values scores) -> (v <= top)%Q) /\
                 keep = fun v => fge v (fsub top margin)).
Proof.
  unfold select_roles_within_margin, Dict.items.
  destruct scores as [|[k v] d]; simpl.
  - exists (fun _ => true). split; [reflexivity|].
    intro H. exfalso. now apply H.
  - exists (fun x => fge x (fsub (max_from fgt v (Dict.values d)) margin)).
    split; [reflexivity|]. intros _.
    destruct (max_from_fgt_spec (Dict.values d) v) as [Hin Hge].
    exists (max_from fgt v (Dict.values d)). auto.
Qed.

Lemma keys_filter_NoDup {V} (P : string * V -> bool) (d : Dict.t V) :
  Dict.wf d -> Dict.wf (filter P d).
Proof.
  unfold Dict.wf, Dict.keys.
  induction d as [|x d IH]; simpl; intro H; [constructor|].
  inversion H as [|? ? Hni Hnd]; subst.
  destruct (P x); simpl; [constructor|]; auto.
  intro Hin. apply Hni. apply in_map_iff in Hin.
  destruct Hin as [y [E Hy]]. apply filter_In in Hy.
  apply in_map_iff. exists y. tauto.
Qed.

(** Looking up the keys of some entries of a dictionary gives these entries
    back. *)
Lemma lookup_entries {V} (d : Dict.t V) (l : list (string * V)) :
  Dict.wf d -> incl l d ->
  flat_map (fun role => match Dict.get role d with
                        | Some v => [(role, v)]
                        | None => []
                        end) (map fst l) = l.
Proof.
  intros Hwf. induction l as [|[k v] l IH]; simpl; intro Hincl;
    [reflexivity|].
  rewrite (DictFacts.In_get k v d Hwf) by (apply Hincl; now left).
  simpl. f_equal. apply IH. intros x Hx. apply Hincl. now right.
Qed.

Lemma filter_scores_by_margin_filter (keep : string * pyfloat -> bool)
  (scores : Dict.t pyfloat) :
  Dict.wf scores ->
  filter_scores_by_margin scores (map fst (filter keep scores)) =
  filter keep scores.
Proof.
  intro Hwf. unfold filter_scores_by_margin.
  rewrite lookup_entries; [|assumption|].
  - apply DictFacts.of_items_distinct. now apply keys_filter_NoDup.
  - intros x Hx. apply filter_In in Hx. tauto.
Qed.

(** C2: on the empty mapping [select_roles_within_margin] returns the empty
    list; on a non-empty one it returns exactly the roles whose score is
    greater than or equal to the greatest score minus the margin, a score
    equal to that bound included; [filter_scores_by_margin] then gives the
    score mapping restricted to exactly the selected roles. *)
Theorem margin_selection (fsub : pyfloat -> pyfloat -> pyfloat)
  (scores : Dict.t pyfloat) (margin : pyfloat) (Hwf : Dict.wf scores) :
  let selected := select_roles_within_margin fsub scores margin in
  (scores = Dict.empty -> selected = []) /\
  (scores <> Dict.empty ->
   exists top,
     In top (Dict.values scores) /\
     (forall v, In v (Dict.values scores) -> (v <= top)%Q) /\
     (forall role,
        In role selected <->
        exists s, Dict.get role scores = Some s /\ (fsub top margin <= s)%Q) /\
     (forall role s,
        Dict.get role scores = Some s -> (s == fsub top margin)%Q ->
        In role selected)) /\
  Dict.keys (filter_scores_by_margin scores selected) = selected /\
  (forall role s,
     Dict.get role (filter_scores_by_margin scores selected) = Some s <->
     In role selected /\ Dict.get role scores = Some s).
Proof.
  intro selected.
  destruct (select_roles_within_margin_filter fsub scores margin)
    as [keep [Hsel Htop]].
  fold selected in Hsel.
  assert (forall role, In role selected <->
            exists s, Dict.get role scores = Some s /\ keep s = true) as Hin.
  { intro role. rewrite Hsel, in_map_iff. split.
    - intros [[k s] [<- H]]. apply filter_In in H. simpl in *.
      exists s. split; [apply DictFacts.In_get|]; tauto.
    - intros [s [H1 H2]]. exists (role, s). split; [reflexivity|].
      apply filter_In. split; [now apply DictFacts.get_In | exact H2]. }
  repeat split.
  - intros ->. exact Hsel.
  - intro Hne. destruct (Htop Hne) as [top [H1 [H2 ->]]].
    exists top. repeat split; try assumption.
    + intro H. apply Hin in H. destruct H as [s [Hs Hk]].
      exists s. split; [assumption | now apply fge_true].
    + intros [s [Hs Hk]]. apply Hin. exists s.
      split; [assumption | now apply fge_true].
    + intros role s Hs Heq. apply Hin. exists s. split; [assumption|].
      apply fge_true. rewrite Heq. apply Qle_refl.
  - rewrite Hsel, filter_scores_by_margin_filter by assumption. reflexivity.
  - rewrite Hsel, filter_scores_by_margin_filter in H by assumption.
    apply DictFacts.get_In in H. apply filter_In in H. apply Hin.
    exists s. split; [apply DictFacts.In_get|]; tauto.
  - rewrite Hsel, filter_scores_by_margin_filter in H by assumption.
    apply DictFacts.get_In in H. apply filter_In in H.
    apply DictFacts.In_get; tauto.
  - intros [H1 H2]. rewrite Hsel, filter_scores_by_margin_filter by assumption.
    apply DictFacts.In_get; [now apply keys_filter_NoDup|].
    apply filter_In. split; [now apply DictFacts.get_In|].
    apply Hin in H1. destruct H1 as [s' [Hs' Hk]]. simpl. congruence.
Qed.

Lemma margin_selection_witness :
  let scores := [("Guardian", 9 # 10); ("Martyr", 85 # 100);
                 ("Victim", 1 # 10)] in
  let selected := select_roles_within_margin fsub_exact scores (5 # 100) in
  (scores = Dict.empty -> selected = []) /\
  (scores <> Dict.empty ->
   exists top,
     In top (Dict.values scores) /\
     (forall v, In v (Dict.values scores) -> (v <= top)%Q) /\
     (forall role,
        In role selected <->
        exists s, Dict.get role scores = Some s /\
                  (fsub_exact top (5 # 100) <= s)%Q) /\
     (forall role s,
        Dict.get role scores = Some s -> (s == fsub_exact top (5 # 100))%Q ->
        In role selected)) /\
  Dict.keys (filter_scores_by_margin scores selected) = selected /\
  (forall role s,
     Dict.get role (filter_scores_by_margin scores selected) = Some s <->
     In role selected /\ Dict.get role scores = Some s).
Proof.
  apply (margin_selection fsub_exact
           [("Guardian", 9 # 10); ("Martyr", 85 # 100); ("Victim", 1 # 10)]
           (5 # 100)).
  unfold Dict.wf. simpl.
  repeat constructor; simpl; intuition discriminate.
Defined.

Example select_roles_within_margin_sample :
  select_roles_within_margin fsub_exact
    [("Guardian", 9 # 10); ("Martyr", 85 # 100); ("Victim", 1 # 10)]
    (5 # 100) = ["Guardian"; "Martyr"].
Proof. reflexivity. Qed.

(** *** The whole run *)

Lemma bind_ok {A B} (c : M A) (k : A -> M B) out a out' :
  c out = (Ok a, out') -> bind c k out = k a out'.
Proof. intro H. unfold bind. now rewrite H. Qed.

Section Stage2Run.
Variable clf_pipeline : string -> result (list (list label_score)).
Variable round4 : pyfloat -> pyfloat.
Variable fsub : pyfloat -> pyfloat -> pyfloat.

Lemma pipeline_with_confidence_run ex threshold out :
  pipeline_with_confidence clf_pipeline round4 ex threshold out =
  (Ok (row_scores clf_pipeline round4 threshold ex),
   out ++ row_log clf_pipeline ex).
Proof.
  unfold row_scores, row_log.
  destruct (clf_pipeline (input_text ex)) as [[|scores rest]|e] eqn:E.
  - unfold pipeline_with_confidence, bind, try_except, lift, ret, print.
    rewrite E. reflexivity.
  - rewrite (pipeline_with_confidence_ok clf_pipeline round4 ex threshold
               scores rest out E).
    now rewrite app_nil_r.
  - unfold pipeline_with_confidence, bind, try_except, lift, ret, print.
    rewrite E. reflexivity.
Qed.

Lemma apply_each_pipeline threshold df : forall out,
  apply_each (fun ex => pipeline_with_confidence clf_pipeline round4 ex
                          threshold) df out =
  (Ok (map (row_scores clf_pipeline round4 threshold) df),
   out ++ flat_map (row_log clf_pipeline) df).
Proof.
  induction df as [|ex df IH]; intro out; simpl.
  - unfold ret. now rewrite app_nil_r.
  - unfold bind. rewrite pipeline_with_confidence_run, IH.
    unfold ret. now rewrite app_assoc.
Qed.

Lemma apply_each_filter_scores rows : forall out,
  apply_each filter_scores_by_margin_row (map Some rows) out =
  (Ok (map (fun p => filter_scores_by_margin (fst p) (snd p)) rows), out).
Proof.
  induction rows as [|[sc roles] rows IH]; intro out; simpl; [reflexivity|].
  unfold bind, ret in *. now rewrite IH.
Qed.

Lemma add_columns_map id (g : Dict.t pyfloat -> list string)
  (h : Dict.t pyfloat * list string -> Dict.t pyfloat)
  (f : tc_row -> Dict.t pyfloat) df :
  add_columns df (map f df) (map g (map f df))
    (map h (combine (map f df) (map g (map f df)))) id =
  map (fun ex => Stage2Row ex (f ex) (g (f ex)) (h (f ex, g (f ex))) id) df.
Proof.
  induction df as [|ex df IH]; simpl; [reflexivity|]. now rewrite IH.
Qed.

Lemma apply_rows_pipeline threshold df out :
  df <> [] ->
  apply_rows nan_tc_row
    (fun ex => pipeline_with_confidence clf_pipeline round4 ex threshold)
    df out =
  (Ok (Column (map (row_scores clf_pipeline round4 threshold) df)),
   out ++ flat_map (row_log clf_pipeline) df).
Proof.
  intro Hne. destruct df as [|ex df]; [contradiction|].
  unfold apply_rows, bind. now rewrite apply_each_pipeline.
Qed.

Lemma apply_rows_filter_scores rows out :
  rows <> [] ->
  apply_rows None filter_scores_by_margin_row (map Some rows) out =
  (Ok (Column (map (fun p => filter_scores_by_margin (fst p) (snd p)) rows)),
   out).
Proof.
  intro Hne. destruct rows as [|r rows]; [contradiction|].
  change (map Some (r :: rows)) with (Some r :: map Some rows).
  unfold apply_rows, bind.
  change (Some r :: map Some rows) with (map Some (r :: rows)).
  now rewrite apply_each_filter_scores.
Qed.

(** The run on a frame with rows, in closed form: one result row per input
    row, in order, and the printed lines of the rows in order. *)
Lemma run_stage2_closed_form id df threshold margin out :
  df <> [] ->
  run_stage2_with_cached_model clf_pipeline round4 fsub id df threshold
    margin out =
  (Ok (map (row_result clf_pipeline round4 fsub id threshold margin) df),
   out ++ flat_map (row_log clf_pipeline) df).
Proof.
  intro Hne. unfold run_stage2_with_cached_model.
  erewrite bind_ok by (now apply apply_rows_pipeline).
  erewrite bind_ok by reflexivity.
  erewrite bind_ok.
  2:{ apply apply_rows_filter_scores.
      destruct df as [|ex df]; [contradiction | discriminate]. }
  erewrite bind_ok by reflexivity.
  unfold ret. f_equal. f_equal.
  apply (add_columns_map id
           (fun sc => select_roles_within_margin fsub sc margin)
           (fun p => filter_scores_by_margin (fst p) (snd p))).
Qed.

(** The run on a frame without rows: the classifier is called once, on the
    placeholder row, and the third assignment raises. *)
Lemma run_stage2_empty_frame id threshold margin out :
  run_stage2_with_cached_model clf_pipeline round4 fsub id [] threshold
    margin out =
  (Raise (Exception
            "Cannot set a DataFrame with multiple columns to the single column p_fine_roles_w_conf"),
   out ++ row_log clf_pipeline nan_tc_row).
Proof.
  unfold run_stage2_with_cached_model, apply_rows at 1, bind at 1.
  rewrite pipeline_with_confidence_run. reflexivity.
Qed.
End Stage2Run.

Lemma Forall2_map_self {A B} (P : A -> B -> Prop) (g : A -> B) l :
  (forall x, P x (g x)) -> Forall2 P l (map g l).
Proof.
  intro H. induction l as [|x l IH]; simpl; constructor; auto.
Qed.

(** *** A classifier that raises *)

(** C10, as the code has it: when the classification pipeline raises for a
    row, [pipeline_with_confidence] returns the empty mapping for it and lets
    no exception out; so [run_stage2_with_cached_model] returns a frame for
    every input frame that has at least one row, with one row per input row,
    and in each row whose classification raised the three fine-role columns
    are empty. *)
Theorem run_stage2_survives_classifier_failure
  (clf_pipeline : string -> result (list (list label_score)))
  (round4 : pyfloat -> pyfloat) (fsub : pyfloat -> pyfloat -> pyfloat)
  (id : string) (df : list tc_row) (threshold margin : pyfloat)
  (out : list string) (Hrows : df <> []) :
  (forall ex e o,
     clf_pipeline (input_text ex) = Raise e ->
     exists o', pipeline_with_confidence clf_pipeline round4 ex threshold o =
                (Ok Dict.empty, o')) /\
  exists rows out',
    run_stage2_with_cached_model clf_pipeline round4 fsub id df threshold
      margin out = (Ok rows, out') /\
    Forall2 (fun ex row =>
               input_row row = ex /\
               article_id row = id /\
               forall e, clf_pipeline (input_text ex) = Raise e ->
                         predicted_fine_with_scores row = Dict.empty /\
                         predicted_fine_margin row = [] /\
                         p_fine_roles_w_conf row = Dict.empty)
            df rows.
Proof.
  split.
  - intros ex e o H.
    destruct (pipeline_with_confidence_raise clf_pipeline round4 ex threshold
                o (or_introl (ex_intro _ e H))) as [line Hl].
    eauto.
  - rewrite run_stage2_closed_form by assumption.
    do 2 eexists. split; [reflexivity|].
    apply Forall2_map_self. intro ex.
    unfold row_result. cbn [input_row article_id predicted_fine_with_scores
                            predicted_fine_margin p_fine_roles_w_conf].
    split; [reflexivity|]. split; [reflexivity|].
    intros e He. unfold row_scores. rewrite He. repeat split.
Qed.

Lemma run_stage2_survives_classifier_failure_witness :
  let clf := fun t => if String.eqb t (input_text sample_row)
                      then Raise (Exception "CUDA out of memory")
                      else sample_clf t in
  let df := [sample_row; TcRow "Bob" "Antagonist" "Bob lied."] in
  (forall ex e o,
     clf (input_text ex) = Raise e ->
     exists o', pipeline_with_confidence clf round4_decimal ex
                  default_threshold o = (Ok Dict.empty, o')) /\
  exists rows out',
    run_stage2_with_cached_model clf round4_decimal fsub_exact "article_1" df
      default_threshold default_margin [] = (Ok rows, out') /\
    Forall2 (fun ex row =>
               input_row row = ex /\
               article_id row = "article_1" /\
               forall e, clf (input_text ex) = Raise e ->
                         predicted_fine_with_scores row = Dict.empty /\
                         predicted_fine_margin row = [] /\
                         p_fine_roles_w_conf row = Dict.empty)
            df rows.
Proof.
  apply (run_stage2_survives_classifier_failure
           (fun t => if String.eqb t (input_text sample_row)
                     then Raise (Exception "CUDA out of memory")
                     else sample_clf t)
           round4_decimal fsub_exact "article_1"
           [sample_row; TcRow "Bob" "Antagonist" "Bob lied."]
           default_threshold default_margin []).
  discriminate.
Defined.

(** C10, as stated, fails: on the frame without rows the run does not
    complete.  The classifier, probed once on the placeholder row, raises and
    its line is printed; the assignment of line 153 then raises. *)
Lemma run_stage2_raises_on_empty_frame :
  run_stage2_default (fun _ => Raise (Exception "CUDA out of memory"))
    round4_decimal fsub_exact "article_1" [] [] =
  (Raise (Exception
            "Cannot set a DataFrame with multiple columns to the single column p_fine_roles_w_conf"),
   ["Error in pipeline: CUDA out of memory"]) /\
  run_stage2_default sample_clf round4_decimal fsub_exact "article_1" [] [] =
  (Raise (Exception
            "Cannot set a DataFrame with multiple columns to the single column p_fine_roles_w_conf"),
   []).
Proof. split; reflexivity. Qed.

Example run_stage2_failing_row :
  run_stage2_default
    (fun t => if String.eqb t (input_text sample_row)
              then Raise (Exception "CUDA out of memory") else sample_clf t)
    round4_decimal fsub_exact "article_1"
    [sample_row; TcRow "Bob" "Antagonist" "Bob lied."] [] =
  (Ok [Stage2Row sample_row [] [] [] "article_1";
       Stage2Row (TcRow "Bob" "Antagonist" "Bob lied.")
         [("Guardian", 9000 # 10000); ("Martyr", 5000 # 10000);
          ("Victim", 1000 # 10000)]
         ["Guardian"]
         [("Guardian", 9000 # 10000)] "article_1"],
   ["Error in pipeline: CUDA out of memory"]).
Proof. reflexivity. Qed.

(** ** Stage 1: trimming a span *)

Lemma lstrip_split s : exists l, s = (l ++ lstrip s)%list /\ all_space l.
Proof.
  induction s as [|c s [l [H1 H2]]]; simpl.
  - exists []. split; [reflexivity | constructor].
  - destruct (isspace c) eqn:E.
    + exists (c :: l). split; [simpl; congruence | now constructor].
    + exists []. split; [reflexivity | constructor].
Qed.

Lemma lstrip_all_space l s :
  all_space l -> lstrip (l ++ s)%list = lstrip s.
Proof.
  induction 1 as [|c l Hc _ IH]; simpl; [reflexivity|]. now rewrite Hc.
Qed.

Lemma lstrip_nil s : lstrip s = [] -> all_space s.
Proof.
  induction s as [|c s IH]; simpl; [constructor|].
  destruct (isspace c) eqn:E; intro H; [|discriminate H].
  constructor; [exact E | exact (IH H)].
Qed.

Lemma lstrip_app s t :
  lstrip s <> [] -> lstrip (s ++ t)%list = (lstrip s ++ t)%list.
Proof.
  induction s as [|c s IH]; simpl; [congruence|].
  destruct (isspace c); auto.
Qed.

Lemma all_space_rev s : all_space s -> all_space (rev s).
Proof. unfold all_space. apply Forall_rev. Qed.

Lemma rstrip_all_space s : all_space s -> rstrip s = [].
Proof.
  intro H. unfold rstrip.
  rewrite <- (app_nil_r (rev s)), lstrip_all_space by now apply all_space_rev.
  reflexivity.
Qed.

Lemma rstrip_split s : exists t, s = (rstrip s ++ t)%list /\ all_space t.
Proof.
  destruct (lstrip_split (rev s)) as [l [H1 H2]].
  exists (rev l). split; [|now apply all_space_rev].
  unfold rstrip. rewrite <- rev_app_distr, <- H1. now rewrite rev_involutive.
Qed.

(** A string whose left-stripped form is not empty keeps its leading
    whitespace when it is stripped on the right. *)
Lemma rstrip_app l m :
  all_space l -> lstrip m <> [] -> rstrip (l ++ m)%list = (l ++ rstrip m)%list.
Proof.
  intros Hl Hm. unfold rstrip.
  rewrite rev_app_distr, lstrip_app.
  - now rewrite rev_app_distr, rev_involutive.
  - intro H. apply lstrip_nil, all_space_rev in H.
    rewrite rev_involutive in H. apply Hm.
    rewrite <- (app_nil_r m), lstrip_all_space by assumption. reflexivity.
Qed.

Lemma lstrip_idem s : lstrip (lstrip s) = lstrip s.
Proof.
  induction s as [|c s IH]; simpl; [reflexivity|].
  destruct (isspace c) eqn:E; [assumption|]. simpl. now rewrite E.
Qed.

(** The shape of a string around its stripped form, with the two lengths the
    trimming step computes. *)
Lemma strip_split seg :
  (lstrip seg = [] /\ rstrip seg = [] /\ strip seg = []) \/
  (exists l t,
     seg = (l ++ strip seg ++ t)%list /\ strip seg <> [] /\
     len seg - len (lstrip seg) = len l /\
     len seg - len (rstrip seg) = len t)%Z.
Proof.
  destruct (lstrip_split seg) as [l [Hl Hsp]].
  destruct (lstrip seg) as [|c m] eqn:E.
  - left. rewrite app_nil_r in Hl. subst l.
    unfold strip. rewrite E. split; [reflexivity|].
    split; [now apply rstrip_all_space | reflexivity].
  - right. destruct (rstrip_split (c :: m)) as [t [Ht Hst]].
    assert (lstrip (c :: m) <> []) as Hne.
    { rewrite <- E, lstrip_idem, E. discriminate. }
    assert (rstrip seg = (l ++ rstrip (c :: m))%list) as Hr.
    { rewrite Hl at 1. now apply rstrip_app. }
    exists l, t. unfold strip. rewrite E.
    assert (rstrip (c :: m) <> []) as Hne'.
    { intro H0. rewrite H0 in Ht. simpl in Ht. subst t.
      apply Hne.
      rewrite <- (app_nil_r (c :: m)), lstrip_all_space by assumption.
      reflexivity. }
    split; [rewrite <- Ht; exact Hl|]. split; [exact Hne'|].
    pose proof (f_equal (@List.length N) Hl) as L1.
    pose proof (f_equal (@List.length N) Ht) as L2.
    pose proof (f_equal (@List.length N) Hr) as L3.
    rewrite length_app in L1, L2, L3.
    unfold len. lia.
Qed.

Lemma slice_bound_id n i : (0 <= i <= n)%Z -> slice_bound n i = i.
Proof.
  intro H. unfold slice_bound.
  destruct (Z.ltb_spec i 0); lia.
Qed.

Lemma slice_inside s i j :
  (0 <= i <= len s)%Z -> (0 <= j <= len s)%Z ->
  slice s i j = firstn (Z.to_nat (j - i)) (skipn (Z.to_nat i) s).
Proof.
  intros Hi Hj. unfold slice. now rewrite !slice_bound_id.
Qed.

(** A slice inside the text splits the text in three. *)
Lemma slice_split text i j :
  (0 <= i <= j)%Z -> (j <= len text)%Z ->
  exists pre post,
    text = (pre ++ slice text i j ++ post)%list /\
    len pre = i /\ len (slice text i j) = (j - i)%Z.
Proof.
  intros Hi Hj. rewrite slice_inside by lia.
  exists (firstn (Z.to_nat i) text),
         (skipn (Z.to_nat (j - i)) (skipn (Z.to_nat i) text)).
  unfold len in *.
  rewrite firstn_skipn, firstn_skipn.
  split; [reflexivity|].
  rewrite !length_firstn, length_skipn. lia.
Qed.

Lemma slice_middle pre mid post :
  slice (pre ++ mid ++ post)%list (len pre) (len pre + len mid) = mid.
Proof.
  unfold len. rewrite slice_inside.
  - rewrite Nat2Z.id.
    replace (Z.to_nat (Z.of_nat (List.length pre) + Z.of_nat (List.length mid)
                       - Z.of_nat (List.length pre)))
      with (List.length mid + 0)%nat by lia.
    rewrite skipn_app, Nat.sub_diag, skipn_all. simpl.
    rewrite firstn_app_2. simpl. now rewrite app_nil_r.
  - unfold len. rewrite !length_app. lia.
  - unfold len. rewrite !length_app. lia.
Qed.

Lemma slice_reversed s i j :
  (0 <= j <= i)%Z -> (i <= len s)%Z -> slice s i j = [].
Proof.
  intros H1 H2. rewrite slice_inside by lia.
  replace (Z.to_nat (j - i)) with 0%nat by lia. reflexivity.
Qed.

(** The offsets after trimming, in the two cases of [strip_split]. *)
Lemma trim_span_offsets text sp :
  (0 <= start sp <= end_ sp)%Z -> (end_ sp <= len text)%Z ->
  let seg := slice text (start sp) (end_ sp) in
  let s := fst (fst (trim_span text sp)) in
  let e := snd (fst (trim_span text sp)) in
  (strip seg = [] /\ s = end_ sp /\ e = start sp) \/
  (strip seg <> [] /\
   exists pre l t post,
     text = (pre ++ (l ++ strip seg ++ t) ++ post)%list /\
     len pre = start sp /\ s = (len pre + len l)%Z /\
     e = (len pre + len l + len (strip seg))%Z /\
     end_ sp = (e + len t)%Z).
Proof.
  intros H1 H2 seg s e.
  destruct (slice_split text (start sp) (end_ sp) H1 H2)
    as [pre [post [Ht [Hpre Hseg]]]].
  fold seg in Ht, Hseg.
  unfold s, e, trim_span. simpl. fold seg.
  destruct (strip_split seg) as [[Hl [Hr Hs]]|[l [t [Hsplit [Hne [Hl Hr]]]]]].
  - left. rewrite Hl, Hr. unfold len at 2 4. simpl.
    split; [assumption|]. lia.
  - right. split; [assumption|].
    exists pre, l, t, post. rewrite <- Hsplit.
    split; [exact Ht|]. split; [exact Hpre|].
    rewrite Hl, Hr.
    assert (len seg = len l + len (strip seg) + len t)%Z as Hlen.
    { rewrite Hsplit at 1. unfold len. rewrite !length_app. lia. }
    lia.
Qed.

(** Every prediction is the image of its span under the loop body. *)
Lemma predictions_pointwise id bert text (P : span -> prediction -> Prop) :
  (forall sp, P sp (output_line id text (trim_span text sp))) ->
  Forall2 P (bert text) (fst (predict_with_cached_model id bert text)).
Proof.
  intro H. unfold predict_with_cached_model. simpl.
  induction (bert text) as [|sp spans IH]; simpl; constructor; auto.
Qed.

Lemma trim_span_role text sp :
  In (snd (trim_span text sp))
     ["Protagonist"; "Antagonist"; "Innocent"; "Unknown"].
Proof.
  unfold trim_span. simpl.
  repeat match goal with
         | |- context [if ?b then _ else _] => destruct b
         end; simpl; tauto.
Qed.

(** C8: for a span inside the text, the slice at the trimmed offsets is the
    stripped slice of the span; both are empty when the span is blank. *)
Theorem trimmed_slice_is_stripped_slice (id : string)
  (bert_model : pystr -> list span) (text : pystr) :
  Forall2 (fun sp p =>
             (0 <= start sp <= end_ sp)%Z -> (end_ sp <= len text)%Z ->
             slice text (pred_start p) (pred_end p) =
             strip (slice text (start sp) (end_ sp)))
          (bert_model text)
          (fst (predict_with_cached_model id bert_model text)).
Proof.
  apply predictions_pointwise. intros sp H1 H2.
  destruct (trim_span_offsets text sp H1 H2)
    as [[Hs [Hst He]]|[Hne [pre [l [t [post [Ht [Hpre [Hst [He Hend]]]]]]]]]].
  - destruct (trim_span text sp) as [[s e] r]. simpl in *. subst s e.
    rewrite Hs. apply slice_reversed; lia.
  - destruct (trim_span text sp) as [[s e] r]. simpl in *. subst s e.
    remember (strip (slice text (start sp) (end_ sp))) as mid eqn:Hmid.
    clear Hmid. subst text.
    replace (pre ++ (l ++ mid ++ t) ++ post)%list
      with ((pre ++ l) ++ mid ++ (t ++ post))%list
      by (now rewrite <- !app_assoc).
    replace (len pre + len l)%Z with (len (pre ++ l))
      by (unfold len; rewrite length_app; lia).
    apply slice_middle.
Qed.

Lemma trimmed_slice_is_stripped_slice_witness :
  slice sample_text 10 13 = strip (slice sample_text 9 14) /\
  slice sample_text 6 5 = strip (slice sample_text 5 6).
Proof.
  pose proof (trimmed_slice_is_stripped_slice "a1" sample_bert sample_text)
    as H.
  destruct (proj1 (Forall2_cons_iff _
                     (Span 9 14 (7 # 10) (1 # 10) (1 # 10) (1 # 10))
                     (Prediction "a1" (codes "Bob") 10 13 "Antagonist")
                     [Span 5 6 (1 # 4) (1 # 4) (1 # 4) (1 # 4)]
                     [Prediction "a1" [] 6 5 "Unknown"]) H) as [H1 H2].
  destruct (proj1 (Forall2_cons_iff _
                     (Span 5 6 (1 # 4) (1 # 4) (1 # 4) (1 # 4))
                     (Prediction "a1" [] 6 5 "Unknown") [] []) H2)
    as [H3 _].
  split; [apply H1 | apply H3]; simpl; unfold len; simpl; lia.
Defined.

Example trimmed_slice_sample :
  fst (predict_with_cached_model "a1" sample_bert sample_text) =
  [Prediction "a1" (codes "Bob") 10 13 "Antagonist";
   Prediction "a1" [] 6 5 "Unknown"].
Proof. reflexivity. Qed.

(** C4, as the code has it: the main role of every prediction is one of the
    four role names; and for a span inside the text whose slice has a
    character that is not whitespace, the trimmed offsets satisfy
    [0 <= start <= s < e <= end <= len(text)]. *)
Theorem prediction_role_and_offsets (id : string)
  (bert_model : pystr -> list span) (text : pystr) :
  Forall2 (fun sp p =>
             In (pred_role p)
                ["Protagonist"; "Antagonist"; "Innocent"; "Unknown"] /\
             ((0 <= start sp <= end_ sp)%Z -> (end_ sp <= len text)%Z ->
              strip (slice text (start sp) (end_ sp)) <> [] ->
              (0 <= start sp <= pred_start p)%Z /\
              (pred_start p < pred_end p)%Z /\
              (pred_end p <= end_ sp <= len text)%Z))
          (bert_model text)
          (fst (predict_with_cached_model id bert_model text)).
Proof.
  apply predictions_pointwise. intro sp.
  pose proof (trim_span_role text sp) as Hrole.
  split.
  - destruct (trim_span text sp) as [[s e] r]. exact Hrole.
  - intros H1 H2 Hne.
    destruct (trim_span_offsets text sp H1 H2)
      as [[Hs _]|[_ [pre [l [t [post [Ht [Hpre [Hst [He Hend]]]]]]]]]];
      [contradiction|].
    destruct (trim_span text sp) as [[s e] r]. simpl in *. subst s e.
    assert (0 < len (strip (slice text (start sp) (end_ sp))))%Z.
    { destruct (strip (slice text (start sp) (end_ sp)));
        [contradiction | unfold len; simpl; lia]. }
    unfold len in *. lia.
Qed.

Lemma prediction_role_and_offsets_witness :
  In "Antagonist" ["Protagonist"; "Antagonist"; "Innocent"; "Unknown"] /\
  (0 <= 9 <= 10)%Z /\ (10 < 13)%Z /\ (13 <= 14 <= len sample_text)%Z.
Proof.
  pose proof (prediction_role_and_offsets "a1" sample_bert sample_text) as H.
  destruct (proj1 (Forall2_cons_iff _
                     (Span 9 14 (7 # 10) (1 # 10) (1 # 10) (1 # 10))
                     (Prediction "a1" (codes "Bob") 10 13 "Antagonist")
                     [Span 5 6 (1 # 4) (1 # 4) (1 # 4) (1 # 4)]
                     [Prediction "a1" [] 6 5 "Unknown"]) H) as [[H1 H2] _].
  split; [exact H1|].
  apply H2; simpl; unfold len; simpl; try lia. discriminate.
Defined.

(** C4, as stated, fails: a span over one blank is inside the text, and its
    prediction has the offsets [s = 1] and [e = 0]. *)
Lemma blank_span_offsets_reversed :
  let sp := Span 0 1 (1 # 4) (1 # 4) (1 # 4) (1 # 4) in
  (0 <= start sp <= end_ sp)%Z /\ (end_ sp <= len [32%N])%Z /\
  fst (predict_with_cached_model "a1" (fun _ => [sp]) [32%N]) =
  [Prediction "a1" [] 1 0 "Unknown"] /\
  ~ (1 < 0)%Z.
Proof.
  simpl. repeat split; try discriminate; unfold len; simpl; lia.
Qed.

(** ** Model availability *)

(** C9: whatever the two loaders did, the [else] branch is never taken, and
    whenever the NER model failed to load the error reported is
    ["NER model failed to load"], the stage-2 model having loaded or not. *)
Theorem both_models_failed_is_unreachable {A B : Type}
  (ner_loader : result A) (stage2_loader : result B) :
  let NER_MODEL := load_model ner_loader in
  let STAGE2_MODEL := load_model stage2_loader in
  startup_check NER_MODEL STAGE2_MODEL <> ElseBranch /\
  prediction_error (startup_check NER_MODEL STAGE2_MODEL) <>
    Some "Both models failed to load" /\
  (NER_MODEL = None ->
   PREDICTION_AVAILABLE (startup_check NER_MODEL STAGE2_MODEL) = false /\
   prediction_error (startup_check NER_MODEL STAGE2_MODEL) =
     Some "NER model failed to load").
Proof.
  destruct ner_loader, stage2_loader; simpl;
    repeat split; try discriminate.
Qed.

Example startup_check_table :
  map (fun p => prediction_error (startup_check (fst p) (snd p)))
      [(Some tt, Some tt); (None, Some tt); (Some tt, None); (None, None)] =
  [None; Some "NER model failed to load";
   Some "Stage 2 model failed to load"; Some "NER model failed to load"].
Proof. reflexivity. Qed.

(** ** The role filter *)

(** The loop of [filter_labels_by_role] from any dictionary built so far. *)
Lemma filter_labels_loop role_filter (items : list (string * list mention)) :
  forall (acc : Dict.t (list mention)),
    Dict.wf acc ->
    NoDup (Dict.keys acc ++ map fst items) ->
    fold_left
      (fun filtered em =>
         match filter (role_enabled role_filter) (snd em) with
         | [] => filtered
         | _ :: _ =>
             Dict.set (fst em) (filter (role_enabled role_filter) (snd em))
                      filtered
         end) items acc =
    acc ++ filter (fun em => match snd em with [] => false | _ => true end)
             (map (fun em => (fst em, filter (role_enabled role_filter)
                                              (snd em))) items).
Proof.
  induction items as [|[entity mentions] items IH]; simpl; intros acc Hwf Hnd.
  - now rewrite app_nil_r.
  - assert (~ In entity (Dict.keys acc)) as Hfresh.
    { apply NoDup_remove_2 in Hnd. rewrite in_app_iff in Hnd. tauto. }
    assert (NoDup (Dict.keys acc ++ map fst items)) as Hnd'.
    { now apply NoDup_remove_1 in Hnd. }
    destruct (filter (role_enabled role_filter) mentions) as [|m ms] eqn:E.
    + now apply IH.
    + rewrite IH.
      * rewrite DictFacts.set_fresh by assumption.
        now rewrite <- app_assoc.
      * now apply DictFacts.wf_set.
      * rewrite DictFacts.set_fresh by assumption.
        unfold Dict.keys in *. rewrite map_app, <- app_assoc. exact Hnd.
Qed.

(** C6: in the mapping returned by [filter_labels_by_role], an entity has a
    list of mentions exactly when it had one in [labels] with at least one
    mention whose main role is in the filter; that list holds exactly those
    mentions, unchanged and in their order. *)
Theorem filter_labels_by_role_membership
  (labels : Dict.t (list mention)) (role_filter : list string)
  (Hwf : Dict.wf labels) :
  let filtered := filter_labels_by_role labels role_filter in
  Dict.wf filtered /\
  (forall entity ms,
     Dict.get entity filtered = Some ms <->
     exists mentions,
       Dict.get entity labels = Some mentions /\
       ms = filter (role_enabled role_filter) mentions /\ ms <> []) /\
  (forall entity mentions ms m,
     Dict.get entity labels = Some mentions ->
     Dict.get entity filtered = Some ms ->
     (In m ms <-> In m mentions /\ role_enabled role_filter m = true)) /\
  (forall entity,
     In entity (Dict.keys filtered) <->
     exists mentions m,
       Dict.get entity labels = Some mentions /\ In m mentions /\
       role_enabled role_filter m = true).
Proof.
  intro filtered.
  assert (filtered =
          filter (fun em => match snd em with [] => false | _ => true end)
            (map (fun em => (fst em, filter (role_enabled role_filter)
                                             (snd em))) labels)) as Hf.
  { unfold filtered, filter_labels_by_role, Dict.items.
    rewrite filter_labels_loop; [reflexivity | constructor | exact Hwf]. }
  assert (Dict.wf filtered) as Hwf'.
  { rewrite Hf. apply keys_filter_NoDup.
    unfold Dict.wf, Dict.keys. rewrite map_map. exact Hwf. }
  assert (forall entity ms,
     Dict.get entity filtered = Some ms <->
     exists mentions,
       Dict.get entity labels = Some mentions /\
       ms = filter (role_enabled role_filter) mentions /\ ms <> []) as Hget.
  { intros entity ms. split.
    - intro H. apply DictFacts.get_In in H. rewrite Hf in H.
      apply filter_In in H. destruct H as [H Hne].
      apply in_map_iff in H. destruct H as [[e mentions] [Heq Hin]].
      simpl in Heq. injection Heq as -> <-. exists mentions.
      split; [now apply DictFacts.In_get|]. split; [reflexivity|].
      simpl in Hne. intro H0. rewrite H0 in Hne. discriminate.
    - intros [mentions [H1 [H2 H3]]].
      apply DictFacts.In_get; [exact Hwf'|]. rewrite Hf.
      apply filter_In. split.
      + apply in_map_iff. exists (entity, mentions). simpl.
        split; [now rewrite H2 | now apply DictFacts.get_In].
      + simpl. destruct ms; [contradiction | reflexivity]. }
  split; [exact Hwf'|]. split; [exact Hget|]. split.
  - intros entity mentions ms m H1 H2.
    apply Hget in H2. destruct H2 as [mentions' [H2 [-> _]]].
    assert (mentions' = mentions) as -> by congruence.
    apply filter_In.
  - intro entity. rewrite <- DictFacts.contains_true.
    unfold Dict.contains. split.
    + destruct (Dict.get entity filtered) as [ms|] eqn:E; [|discriminate].
      intros _. apply Hget in E. destruct E as [mentions [H1 [H2 H3]]].
      destruct ms as [|m ms]; [contradiction|].
      assert (In m (filter (role_enabled role_filter) mentions)) as Hm
        by (rewrite <- H2; now left).
      apply filter_In in Hm. exists mentions, m. tauto.
    + intros [mentions [m [H1 [H2 H3]]]].
      assert (Dict.get entity filtered =
              Some (filter (role_enabled role_filter) mentions)) as ->.
      { apply Hget. exists mentions. split; [assumption|].
        split; [reflexivity|]. intro H0.
        assert (In m (filter (role_enabled role_filter) mentions)) as Hm
          by (apply filter_In; tauto).
        rewrite H0 in Hm. exact Hm. }
      reflexivity.
Qed.

Lemma filter_labels_by_role_membership_witness :
  let filtered := filter_labels_by_role sample_labels ["Protagonist"] in
  Dict.wf filtered /\
  (forall entity ms,
     Dict.get entity filtered = Some ms <->
     exists mentions,
       Dict.get entity sample_labels = Some mentions /\
       ms = filter (role_enabled ["Protagonist"]) mentions /\ ms <> []) /\
  (forall entity mentions ms m,
     Dict.get entity sample_labels = Some mentions ->
     Dict.get entity filtered = Some ms ->
     (In m ms <-> In m mentions /\ role_enabled ["Protagonist"] m = true)) /\
  (forall entity,
     In entity (Dict.keys filtered) <->
     exists mentions m,
       Dict.get entity sample_labels = Some mentions /\ In m mentions /\
       role_enabled ["Protagonist"] m = true).
Proof.
  apply (filter_labels_by_role_membership sample_labels ["Protagonist"]).
  unfold Dict.wf. simpl.
  repeat constructor; simpl; intuition discriminate.
Defined.

Example filter_labels_by_role_sample :
  filter_labels_by_role sample_labels ["Protagonist"; "Innocent"] =
  [("Alice", [sample_mention "Protagonist" 0 5;
              sample_mention "Innocent" 20 25])] /\
  filter_labels_by_role sample_labels [] = [].
Proof. split; reflexivity. Qed.

(** ** The sentence loops *)

Lemma calls_of_app {Seen} (tr1 tr2 : list (event Seen)) :
  calls_of (tr1 ++ tr2) = calls_of tr1 ++ calls_of tr2.
Proof.
  induction tr1 as [|[sent compact seen|html] tr1 IH]; simpl; congruence.
Qed.

(** The loop from any state: the calls it adds are the sentences in order,
    each with the accumulator the call before it returned. *)
Lemma loop_body_threaded {Seen}
  (format_sentence_with_spans :
     string -> Dict.t (list mention) -> pyfloat -> bool -> bool ->
     option Seen -> string * option Seen)
  labels role_filter threshold hide_repeat compact sents :
  forall seen tr,
    let st := fold_left
                (loop_body format_sentence_with_spans labels role_filter
                           threshold hide_repeat compact)
                sents (seen, tr) in
    exists calls,
      calls_of (snd st) = calls_of tr ++ calls /\
      map fst calls = sents /\
      threaded format_sentence_with_spans labels role_filter threshold
               hide_repeat compact seen calls (fst st).
Proof.
  induction sents as [|sent sents IH]; intros seen tr; simpl.
  - exists []. rewrite app_nil_r. repeat split. constructor.
  - destruct (format_sentence_with_spans sent
                (filter_labels_by_role labels role_filter) threshold
                hide_repeat compact seen) as [html_block seen'] eqn:E.
    assert (loop_body format_sentence_with_spans labels role_filter threshold
              hide_repeat compact (seen, tr) sent =
            (seen', tr ++ [EvFormat sent compact seen; EvShow html_block]))
      as Hbody.
    { unfold loop_body. simpl. now rewrite E. }
    rewrite Hbody.
    destruct (IH seen' (tr ++ [EvFormat sent compact seen; EvShow html_block]))
      as [calls [H1 [H2 H3]]].
    exists ((sent, seen) :: calls).
    rewrite H1, calls_of_app. simpl. rewrite <- app_assoc. simpl.
    repeat split; [congruence|].
    constructor. rewrite E. exact H3.
Qed.

(** C3: in both sentence loops, the first call of
    [format_sentence_with_spans] receives the empty accumulator [None], every
    later call receives the accumulator the call before it returned, and the
    calls are made for the sentences in their order. *)
Theorem sentence_loops_thread_accumulator {Seen : Type}
  (format_sentence_with_spans :
     string -> Dict.t (list mention) -> pyfloat -> bool -> bool ->
     option Seen -> string * option Seen)
  (labels : Dict.t (list mention)) (role_filter : list string)
  (threshold : pyfloat) (hide_repeat : bool) (sents : list string) :
  let consistent compact st :=
    map fst (calls_of (snd st)) = sents /\
    (forall sent seen rest,
       calls_of (snd st) = (sent, seen) :: rest -> seen = None) /\
    threaded format_sentence_with_spans labels role_filter threshold
             hide_repeat compact None (calls_of (snd st)) (fst st) in
  consistent false
    (render_role_sentences format_sentence_with_spans labels role_filter
                           threshold hide_repeat sents) /\
  consistent true
    (render_fine_sentences format_sentence_with_spans labels role_filter
                           threshold hide_repeat sents).
Proof.
  intro consistent.
  assert (forall compact,
            consistent compact
              (render_session format_sentence_with_spans labels role_filter
                              threshold hide_repeat compact sents)) as H.
  { intro compact. unfold consistent, render_session.
    destruct (loop_body_threaded format_sentence_with_spans labels role_filter
                threshold hide_repeat compact sents None [])
      as [calls [H1 [H2 H3]]].
    simpl in H1. rewrite H1. repeat split; try assumption.
    intros sent seen rest Heq. rewrite Heq in H3. now inversion H3. }
  split; apply H.
Qed.

Example render_role_sentences_sample :
  render_role_sentences sample_format sample_labels ["Protagonist"]
    default_threshold true ["Alice won."; "Bob lost."] =
  (Some 2%nat,
   [EvFormat "Alice won." false None; EvShow "Alice won.";
    EvFormat "Bob lost." false (Some 1%nat); EvShow "Bob lost."]).
Proof. reflexivity. Qed.

(** ** The document annotator *)

Lemma scan_without_mentions role_color span_markup text hide_repeat rest :
  forall pos seen,
    RenderText.scan role_color span_markup text [] hide_repeat pos rest 0 seen
    = RenderText.html_escape rest.
Proof.
  induction rest as [|c rest IH]; intros pos seen; simpl; [reflexivity|].
  now rewrite IH.
Qed.

(** C7: for every text and the empty mention set, the document annotator
    returns the HTML-escaped text, whatever the repeat-suppression flag, the
    colour table and the tag syntax. *)
Theorem annotate_document_no_mentions
  (role_color : RenderText.MainRole -> string)
  (span_markup : string -> list (string * pyfloat) -> pystr -> pystr)
  (text : pystr) (hide_repeat : bool) :
  RenderText.annotate_document role_color span_markup text [] hide_repeat =
  RenderText.html_escape text.
Proof.
  unfold RenderText.annotate_document. apply scan_without_mentions.
Qed.

Example annotate_document_sample :
  RenderText.annotate_document sample_color sample_markup
    (codes "Alice & Bob")
    [RenderText.MkMention "Bob" 8 11 RenderText.Antagonist [] [];
     RenderText.MkMention "Alice" 0 5 RenderText.Protagonist [] [];
     RenderText.MkMention "Al" 0 2 RenderText.Unknown [] []] true =
  codes "<span class='green'>Alice</span> &amp; <span class='red'>Bob</span>".
Proof. reflexivity. Qed.

Example annotate_document_empty_sample :
  RenderText.annotate_document sample_color sample_markup
    (codes "a < b") [] true = codes "a &lt; b".
Proof. reflexivity. Qed.


(* ====================================================================== *)
(** * Part III: further properties of the code                             *)
(* ====================================================================== *)

(** ** Stage 1: the role of a prediction *)

Lemma tuple_gt_true a b : tuple_gt a b = true -> (fst b <= fst a)%Q.
Proof.
  unfold tuple_gt, feq. destruct (Qeq_bool (fst a) (fst b)) eqn:E.
  - intros _. apply Qeq_bool_iff in E. rewrite E. apply Qle_refl.
  - intro H. apply fgt_true in H. now apply Qlt_le_weak.
Qed.

Lemma tuple_gt_false a b : tuple_gt a b = false -> (fst a <= fst b)%Q.
Proof.
  unfold tuple_gt, feq. destruct (Qeq_bool (fst a) (fst b)) eqn:E.
  - intros _. apply Qeq_bool_iff in E. rewrite E. apply Qle_refl.
  - intro H. now apply fgt_false in H.
Qed.

(** [max] of [(float, str)] tuples returns one of them, and none has a
    greater first component. *)
Lemma max_from_tuple_gt_spec xs : forall m,
  In (max_from tuple_gt m xs) (m :: xs) /\
  forall x, In x (m :: xs) -> (fst x <= fst (max_from tuple_gt m xs))%Q.
Proof.
  induction xs as [|y xs IH]; intro m; simpl.
  - split; [now left|]. intros x [<-|[]]. apply Qle_refl.
  - destruct (IH (if tuple_gt y m then y else m)) as [Hin Hge].
    split.
    + destruct Hin as [Hin|Hin]; [|now right; right].
      rewrite <- Hin. destruct (tuple_gt y m); [right; now left | now left].
    + intros x Hx.
      assert (fst m <= fst (max_from tuple_gt
                              (if tuple_gt y m then y else m) xs))%Q as Hm.
      { destruct (tuple_gt y m) eqn:E.
        - apply Qle_trans with (fst y); [now apply tuple_gt_true|].
          apply Hge. now left.
        - apply Hge. now left. }
      assert (fst y <= fst (max_from tuple_gt
                              (if tuple_gt y m then y else m) xs))%Q as Hy.
      { destruct (tuple_gt y m) eqn:E.
        - apply Hge. now left.
        - apply Qle_trans with (fst m); [now apply tuple_gt_false | exact Hm]. }
      destruct Hx as [<-|[<-|Hx]]; [assumption | assumption |].
      apply Hge. now right.
Qed.

(** The role chosen for a span, with its probability. *)
Lemma trim_span_role_prob text sp :
  exists c,
    role_confidence sp (snd (trim_span text sp)) = Some c /\
    (prob_antagonist sp <= c)%Q /\ (prob_protagonist sp <= c)%Q /\
    (prob_innocent sp <= c)%Q /\ (prob_unknown sp <= c)%Q.
Proof.
  unfold trim_span. cbv zeta. cbn [snd].
  destruct (max_from_tuple_gt_spec
              [(prob_protagonist sp, "Protagonist");
               (prob_innocent sp, "Innocent");
               (prob_unknown sp, "Unknown")]
              (prob_antagonist sp, "Antagonist")) as [Hin Hge].
  exists (fst (max_from tuple_gt (prob_antagonist sp, "Antagonist")
                 [(prob_protagonist sp, "Protagonist");
                  (prob_innocent sp, "Innocent");
                  (prob_unknown sp, "Unknown")])).
  split.
  - destruct Hin as [H|[H|[H|[H|[]]]]]; rewrite <- H; reflexivity.
  - repeat split.
    + apply (Hge (prob_antagonist sp, "Antagonist")). simpl. tauto.
    + apply (Hge (prob_protagonist sp, "Protagonist")). simpl. tauto.
    + apply (Hge (prob_innocent sp, "Innocent")). simpl. tauto.
    + apply (Hge (prob_unknown sp, "Unknown")). simpl. tauto.
Qed.

(** X1: the main role of every prediction is a role of greatest
    probability: the probability that the role names in its span is at least
    each of the four probabilities of the span. *)
Theorem prediction_role_is_most_probable (id : string)
  (bert_model : pystr -> list span) (text : pystr) :
  Forall2 (fun sp p =>
             exists c,
               role_confidence sp (pred_role p) = Some c /\
               (prob_antagonist sp <= c)%Q /\ (prob_protagonist sp <= c)%Q /\
               (prob_innocent sp <= c)%Q /\ (prob_unknown sp <= c)%Q)
          (bert_model text)
          (fst (predict_with_cached_model id bert_model text)).
Proof.
  apply predictions_pointwise. intro sp.
  pose proof (trim_span_role_prob text sp) as H.
  destruct (trim_span text sp) as [[s e] r]. exact H.
Qed.

Ltac q_facts :=
  repeat match goal with
         | H : feq _ _ = true |- _ => apply Qeq_bool_iff in H
         | H : feq _ _ = false |- _ => apply Qeq_bool_neq in H
         | H : fgt _ _ = true |- _ => apply fgt_true in H
         | H : fgt _ _ = false |- _ => apply fgt_false in H
         end.

(** Case analysis on the comparisons [max] makes, innermost first. *)
Ltac split_tuple_gt :=
  repeat match goal with
         | |- context [tuple_gt (?p, ?n) (?q, ?m)] =>
             let H := fresh "Hgt" in
             destruct (tuple_gt (p, n) (q, m)) eqn:H; cbv iota;
             unfold tuple_gt in H; cbn [fst snd] in H;
             match type of H with
             | context [String.ltb ?a ?b] =>
                 let v := eval vm_compute in (String.ltb a b) in
                 change (String.ltb a b) with v in H
             end;
             let E := fresh "Heq" in
             destruct (feq p q) eqn:E; try discriminate H
         end.

Lemma trim_span_tie text sp r c c' :
  role_confidence sp (snd (trim_span text sp)) = Some c ->
  role_confidence sp r = Some c' -> (c' == c)%Q ->
  String.leb r (snd (trim_span text sp)) = true.
Proof.
  unfold trim_span. cbv zeta. cbn [snd max_from].
  split_tuple_gt; cbn [snd]; intros H1 H2 H3;
    simpl in H1; injection H1 as <-;
    unfold role_confidence in H2;
    (destruct (String.eqb_spec r "Protagonist") as [->|_];
     [|destruct (String.eqb_spec r "Antagonist") as [->|_];
     [|destruct (String.eqb_spec r "Innocent") as [->|_];
     [|destruct (String.eqb_spec r "Unknown") as [->|_]; [|discriminate]]]]);
    injection H2 as <-; try reflexivity;
    q_facts; exfalso; lra.
Qed.

(** X2: when several roles share the greatest probability, the prediction
    takes the one whose name is greatest in string order: every role whose
    probability equals that of the chosen role has a name that is less than
    or equal to the chosen name. *)
Theorem prediction_role_tie_break (id : string)
  (bert_model : pystr -> list span) (text : pystr) :
  Forall2 (fun sp p =>
             forall r c c',
               role_confidence sp (pred_role p) = Some c ->
               role_confidence sp r = Some c' -> (c' == c)%Q ->
               String.leb r (pred_role p) = true)
          (bert_model text)
          (fst (predict_with_cached_model id bert_model text)).
Proof.
  apply predictions_pointwise. intro sp.
  pose proof (trim_span_tie text sp) as H.
  destruct (trim_span text sp) as [[s e] r]. exact H.
Qed.

(** There is one prediction per span, and [non_unknown] is the number of
    predictions whose role is not ["Unknown"], so it is at most the number
    of spans. *)
Lemma non_unknown_counts_specific_roles (id : string)
  (bert_model : pystr -> list span) (text : pystr) :
  let '(output_lines, non_unknown) :=
    predict_with_cached_model id bert_model text in
  List.length output_lines = List.length (bert_model text) /\
  non_unknown =
    List.length (filter (fun p => negb (String.eqb (pred_role p) "Unknown"))
                        output_lines) /\
  (non_unknown <= List.length (bert_model text))%nat.
Proof.
  unfold predict_with_cached_model.
  assert (forall l : list (Z * Z * string),
    List.length (filter (fun p => negb (String.eqb (snd p) "Unknown")) l) =
    List.length (filter (fun p => negb (String.eqb (pred_role p) "Unknown"))
                        (map (output_line id text) l))) as Hcount.
  { induction l as [|[[s e] r] l IH]; [reflexivity|].
    cbn [filter map output_line snd pred_role].
    destruct (negb (String.eqb r "Unknown")); cbn [List.length];
      now rewrite IH. }
  repeat split.
  - now rewrite !length_map.
  - apply Hcount.
  - rewrite <- (length_map (trim_span text) (bert_model text)).
    apply filter_length_le.
Qed.

(** ** Stage 1: the entity text *)

Lemma lstrip_incl s c : In c (lstrip s) -> In c s.
Proof.
  induction s as [|d s IH]; simpl; [tauto|].
  destruct (isspace d); simpl; tauto.
Qed.

Lemma strip_incl s c : In c (strip s) -> In c s.
Proof.
  unfold strip, rstrip. intro H.
  apply in_rev, lstrip_incl in H. apply in_rev in H.
  now apply lstrip_incl.
Qed.

Lemma lstrip_head s c m : lstrip s = c :: m -> isspace c = false.
Proof.
  induction s as [|d s IH]; simpl; [discriminate|].
  destruct (isspace d) eqn:E; [exact IH|].
  intros [= <- _]. exact E.
Qed.

Lemma rstrip_idem s : rstrip (rstrip s) = rstrip s.
Proof. unfold rstrip. now rewrite rev_involutive, lstrip_idem. Qed.

(** A stripped string has no whitespace at either end. *)
Lemma strip_stripped s : lstrip (strip s) = strip s /\ rstrip (strip s) = strip s.
Proof.
  unfold strip. split; [|apply rstrip_idem].
  destruct (lstrip s) as [|c m] eqn:E; [reflexivity|].
  destruct (rstrip_split (c :: m)) as [t [Ht _]].
  destruct (rstrip (c :: m)) as [|c' r]; [reflexivity|].
  simpl in Ht. injection Ht as <- _.
  simpl. now rewrite (lstrip_head s c m E).
Qed.

(** Replacing a whitespace character by a whitespace character commutes
    with stripping. *)
Lemma lstrip_replace1 a b s :
  isspace a = true -> isspace b = true ->
  lstrip (replace1 a b s) = replace1 a b (lstrip s).
Proof.
  intros Ha Hb. unfold replace1.
  induction s as [|c s IH]; simpl; [reflexivity|].
  destruct (N.eqb_spec c a) as [->|Hne].
  - now rewrite Hb, Ha.
  - destruct (isspace c); [exact IH|]. simpl.
    destruct (N.eqb_spec c a); [contradiction | reflexivity].
Qed.

Lemma strip_replace1 a b s :
  isspace a = true -> isspace b = true ->
  strip (replace1 a b s) = replace1 a b (strip s).
Proof.
  intros Ha Hb. unfold strip, rstrip.
  rewrite lstrip_replace1 by assumption.
  unfold replace1 at 1. rewrite <- map_rev. fold (replace1 a b (rev (lstrip s))).
  rewrite lstrip_replace1 by assumption.
  unfold replace1. now rewrite map_rev.
Qed.

Lemma replace1_removes a b s : a <> b -> ~ In a (replace1 a b s).
Proof.
  intros Hne H. unfold replace1 in H. apply in_map_iff in H.
  destruct H as [c [Hc _]].
  destruct (N.eqb_spec c a); congruence.
Qed.

Lemma replace1_keeps_out a b c s :
  c <> b -> ~ In c s -> ~ In c (replace1 a b s).
Proof.
  intros Hne Hs H. unfold replace1 in H. apply in_map_iff in H.
  destruct H as [d [Hd Hin]].
  destruct (N.eqb_spec d a); [congruence | subst; contradiction].
Qed.

(** X3: the entity text of every prediction holds no line feed and no
    carriage return, and no whitespace at its start or at its end. *)
Theorem entity_text_is_one_stripped_line (id : string)
  (bert_model : pystr -> list span) (text : pystr) :
  Forall (fun p =>
            ~ In 10%N (pred_entity_text p) /\
            ~ In 13%N (pred_entity_text p) /\
            lstrip (pred_entity_text p) = pred_entity_text p /\
            rstrip (pred_entity_text p) = pred_entity_text p)
         (fst (predict_with_cached_model id bert_model text)).
Proof.
  unfold predict_with_cached_model. cbn [fst].
  apply Forall_forall. intros p Hp.
  apply in_map_iff in Hp. destruct Hp as [[[s e] r] [<- _]]. simpl.
  repeat split.
  - intro H. apply strip_incl in H. revert H.
    apply replace1_keeps_out; [discriminate|].
    apply replace1_removes. discriminate.
  - intro H. apply strip_incl in H. revert H.
    apply replace1_removes. discriminate.
  - apply strip_stripped.
  - apply strip_stripped.
Qed.

(** The slice at the trimmed offsets of a span inside the text. *)
Lemma trim_span_slice text sp :
  (0 <= start sp <= end_ sp)%Z -> (end_ sp <= len text)%Z ->
  slice text (fst (fst (trim_span text sp))) (snd (fst (trim_span text sp))) =
  strip (slice text (start sp) (end_ sp)).
Proof.
  intros H1 H2.
  destruct (trim_span_offsets text sp H1 H2)
    as [[Hs [Hst He]]|[Hne [pre [l [t [post [Ht [Hpre [Hst [He Hend]]]]]]]]]].
  - rewrite Hst, He, Hs. apply slice_reversed; lia.
  - rewrite Hst, He.
    remember (strip (slice text (start sp) (end_ sp))) as mid eqn:Hmid.
    clear Hmid Hst He. subst text.
    replace (pre ++ (l ++ mid ++ t) ++ post)
      with ((pre ++ l) ++ mid ++ (t ++ post))
      by (now rewrite <- !app_assoc).
    replace (len pre + len l)%Z with (len (pre ++ l))
      by (unfold len; rewrite length_app; lia).
    apply slice_middle.
Qed.

Lemma strip_idem s : strip (strip s) = strip s.
Proof.
  destruct (strip_stripped s) as [H1 H2].
  unfold strip at 1. now rewrite H1, H2.
Qed.

Lemma len_replace1 a b s : len (replace1 a b s) = len s.
Proof. unfold len, replace1. now rewrite length_map. Qed.

(** X4: for a span inside the text, the entity text of the prediction is the
    slice of the text at the trimmed offsets with line feeds and carriage
    returns replaced by spaces, so it has [e - s] characters (none when the
    offsets are reversed). *)
Theorem entity_text_matches_offsets (id : string)
  (bert_model : pystr -> list span) (text : pystr) :
  Forall2 (fun sp p =>
             (0 <= start sp <= end_ sp)%Z -> (end_ sp <= len text)%Z ->
             pred_entity_text p =
               replace1 13 32
                 (replace1 10 32 (slice text (pred_start p) (pred_end p))) /\
             len (pred_entity_text p) = Z.max 0 (pred_end p - pred_start p))
          (bert_model text)
          (fst (predict_with_cached_model id bert_model text)).
Proof.
  apply predictions_pointwise. intros sp H1 H2.
  pose proof (trim_span_slice text sp H1 H2) as Hslice.
  pose proof (trim_span_offsets text sp H1 H2) as Hoff.
  destruct (trim_span text sp) as [[s e] r]. cbn [fst snd] in *.
  cbn [output_line pred_entity_text pred_start pred_end].
  assert (strip (replace1 13 32 (replace1 10 32 (slice text s e))) =
          replace1 13 32 (replace1 10 32 (slice text s e))) as Heq.
  { rewrite !strip_replace1 by reflexivity.
    now rewrite Hslice, strip_idem. }
  split; [exact Heq|].
  rewrite Heq, !len_replace1, Hslice.
  destruct Hoff as [[Hs [-> ->]]|[_ [pre [l [t [post [_ [_ [-> [-> _]]]]]]]]]].
  - rewrite Hs. unfold len. simpl. lia.
  - unfold len. lia.
Qed.

(** X5: for a span inside the text whose slice is empty or all whitespace,
    the prediction has the offsets exchanged, [s = end] and [e = start], and
    an empty entity text. *)
Theorem blank_span_prediction (id : string)
  (bert_model : pystr -> list span) (text : pystr) :
  Forall2 (fun sp p =>
             (0 <= start sp <= end_ sp)%Z -> (end_ sp <= len text)%Z ->
             strip (slice text (start sp) (end_ sp)) = [] ->
             pred_start p = end_ sp /\ pred_end p = start sp /\
             pred_entity_text p = [])
          (bert_model text)
          (fst (predict_with_cached_model id bert_model text)).
Proof.
  apply predictions_pointwise. intros sp H1 H2 Hblank.
  pose proof (trim_span_offsets text sp H1 H2) as Hoff.
  destruct (trim_span text sp) as [[s e] r]. cbn [fst snd] in *.
  cbn [output_line pred_entity_text pred_start pred_end].
  destruct Hoff as [[_ [-> ->]]|[Hne _]]; [|contradiction].
  repeat split.
  rewrite slice_reversed by lia. reflexivity.
Qed.

(** ** Stage 2: what a run prints *)

(** X6: a run of stage 2 on a frame with rows prints one line for each row
    whose classification raised (or answered with an empty list), in the
    order of the rows, each holding the message of the exception, and prints
    nothing else; on a frame without rows it prints that line for the one
    placeholder row on which the classifier is probed. *)
Theorem run_stage2_prints_one_line_per_failure
  (clf_pipeline : string -> result (list (list label_score)))
  (round4 : pyfloat -> pyfloat) (fsub : pyfloat -> pyfloat -> pyfloat)
  (id : string) (df : list tc_row) (threshold margin : pyfloat)
  (out : list string) :
  snd (run_stage2_with_cached_model clf_pipeline round4 fsub id df threshold
         margin out) =
  out ++ flat_map
           (fun ex =>
              match clf_pipeline (input_text ex) with
              | Ok (_ :: _) => []
              | Ok [] => ["Error in pipeline: list index out of range"]
              | Raise e => [("Error in pipeline: " ++ exn_str e)%string]
              end)
           (match df with [] => [nan_tc_row] | _ :: _ => df end).
Proof.
  destruct df as [|ex df].
  - rewrite run_stage2_empty_frame. cbn [snd flat_map].
    now rewrite app_nil_r.
  - rewrite run_stage2_closed_form by discriminate. reflexivity.
Qed.

(** ** Stage 2: the columns of a result row *)

Lemma row_scores_wf clf round4 threshold ex :
  Dict.wf (row_scores clf round4 threshold ex).
Proof.
  unfold row_scores.
  destruct (clf (input_text ex)) as [[|scores rest]|e]; try constructor.
  apply Permutation_NoDup
    with (l := Dict.keys (filtered_scores round4 scores threshold)).
  - symmetry. apply Permutation_map, sorted_by_value_desc_perm.
  - apply DictFacts.wf_of_items.
Qed.

Lemma row_scores_sorted clf round4 threshold ex :
  StronglySorted value_ge (row_scores clf round4 threshold ex).
Proof.
  unfold row_scores.
  destruct (clf (input_text ex)) as [[|scores rest]|e]; try constructor.
  apply sorted_by_value_desc_sorted.
Qed.

Lemma filter_none {A} (f : A -> bool) l :
  (forall x, In x l -> f x = false) -> filter f l = [].
Proof.
  induction l as [|x l IH]; simpl; intro H; [reflexivity|].
  rewrite (H x) by now left. apply IH. intros y Hy. apply H. now right.
Qed.

(** In a list sorted by decreasing value, the entries whose value is at least
    a bound are the first ones. *)
Lemma sorted_filter_prefix c l :
  StronglySorted value_ge l ->
  exists k, filter (fun rs => fge (snd rs) c) l = firstn k l.
Proof.
  induction 1 as [|x l Hs [k IH] Hall]; [exists 0%nat; reflexivity|].
  simpl. destruct (fge (snd x) c) eqn:E.
  - exists (S k). simpl. now rewrite IH.
  - exists 0%nat. simpl. apply filter_none. intros y Hy.
    rewrite Forall_forall in Hall. specialize (Hall y Hy).
    destruct (fge (snd y) c) eqn:E'; [|reflexivity].
    apply fge_true in E'. unfold value_ge in Hall.
    assert (fge (snd x) c = true) as Hx
      by (apply fge_true; now apply Qle_trans with (snd y)).
    congruence.
Qed.

(** The two margin columns of a row as a filter of its score mapping. *)
Lemma row_result_columns clf round4 fsub id threshold margin ex :
  let row := row_result clf round4 fsub id threshold margin ex in
  exists keep : pyfloat -> bool,
    predicted_fine_margin row =
      map fst (filter (fun rs => keep (snd rs))
                      (predicted_fine_with_scores row)) /\
    p_fine_roles_w_conf row =
      filter (fun rs => keep (snd rs)) (predicted_fine_with_scores row) /\
    (predicted_fine_with_scores row <> Dict.empty ->
     exists top,
       In top (Dict.values (predicted_fine_with_scores row)) /\
       keep = fun v => fge v (fsub top margin)).
Proof.
  unfold row_result. cbn [predicted_fine_margin predicted_fine_with_scores
                          p_fine_roles_w_conf].
  destruct (select_roles_within_margin_filter fsub
              (row_scores clf round4 threshold ex) margin)
    as [keep [Hsel Htop]].
  exists keep. rewrite Hsel. split; [reflexivity|]. split.
  - apply (filter_scores_by_margin_filter (fun rs => keep (snd rs))).
    apply row_scores_wf.
  - intro Hne. destruct (Htop Hne) as [top [H1 [_ H2]]]. eauto.
Qed.

(** X7: the run raises only on a frame without rows; in every row of the
    result, the roles within margin are the first keys of the score mapping,
    in its order, and the margin mapping is the score mapping cut after
    them. *)
Theorem margin_columns_are_prefixes
  (clf_pipeline : string -> result (list (list label_score)))
  (round4 : pyfloat -> pyfloat) (fsub : pyfloat -> pyfloat -> pyfloat)
  (id : string) (df : list tc_row) (threshold margin : pyfloat)
  (out : list string) :
  match fst (run_stage2_with_cached_model clf_pipeline round4 fsub id df
               threshold margin out) with
  | Ok rows =>
      Forall (fun row =>
                exists k,
                  predicted_fine_margin row =
                    firstn k (Dict.keys (predicted_fine_with_scores row)) /\
                  p_fine_roles_w_conf row =
                    firstn k (predicted_fine_with_scores row))
             rows
  | Raise _ => df = []
  end.
Proof.
  destruct df as [|ex0 df0];
    [rewrite run_stage2_empty_frame; reflexivity|].
  rewrite run_stage2_closed_form by discriminate. cbn [fst].
  apply Forall_forall. intros row Hrow.
  apply in_map_iff in Hrow. destruct Hrow as [ex [<- _]].
  destruct (row_result_columns clf_pipeline round4 fsub id threshold margin ex)
    as [keep [Hm [Hc Htop]]].
  rewrite Hm, Hc.
  destruct (predicted_fine_with_scores
              (row_result clf_pipeline round4 fsub id threshold margin ex))
    as [|x sc] eqn:E.
  - exists 0%nat. split; reflexivity.
  - destruct Htop as [top [_ ->]]; [discriminate|].
    destruct (sorted_filter_prefix (fsub top margin) (x :: sc)) as [k Hk].
    { rewrite <- E. apply row_scores_sorted. }
    exists k. rewrite Hk. unfold Dict.keys.
    split; [now rewrite firstn_map | reflexivity].
Qed.



Lemma NoDup_map_filter {A B} (g : A -> B) (P : A -> bool) l :
  NoDup (map g l) -> NoDup (map g (filter P l)).
Proof.
  induction l as [|x l IH]; simpl; intro H; [constructor|].
  inversion H as [|? ? Hni Hnd]; subst.
  destruct (P x); simpl; [constructor|]; auto.
  intro Hin. apply Hni. apply in_map_iff in Hin.
  destruct Hin as [y [E Hy]]. apply filter_In in Hy.
  apply in_map_iff. exists y. tauto.
Qed.

(** X9: when the labels of the classifier's answer are distinct, every
    label whose score is above the threshold is mapped to that score rounded
    to four places, and the mapping has exactly one entry per such label. *)
Theorem kept_labels_carry_rounded_scores
  (clf_pipeline : string -> result (list (list label_score)))
  (round4 : pyfloat -> pyfloat) (ex : tc_row) (threshold : pyfloat)
  (scores : list label_score) (rest : list (list label_score))
  (out : list string)
  (Hclf : clf_pipeline (input_text ex) = Ok (scores :: rest))
  (Hnd : NoDup (map label scores)) :
  exists d,
    pipeline_with_confidence clf_pipeline round4 ex threshold out =
    (Ok d, out) /\
    (forall s, In s scores -> (threshold < score s)%Q ->
               Dict.get (label s) d = Some (round4 (score s))) /\
    List.length d =
    List.length (filter (fun s => fgt (score s) threshold) scores).
Proof.
  exists (sorted_by_value_desc (filtered_scores round4 scores threshold)).
  split; [now apply pipeline_with_confidence_ok with (rest := rest)|].
  assert (filtered_scores round4 scores threshold =
          map (fun s => (label s, round4 (score s)))
              (filter (fun s => fgt (score s) threshold) scores)) as Hf.
  { unfold filtered_scores. apply DictFacts.of_items_distinct.
    rewrite map_map. simpl. now apply NoDup_map_filter. }
  pose proof (sorted_by_value_desc_perm
                (filtered_scores round4 scores threshold)) as Hperm.
  split.
  - intros s Hs Hlt. apply DictFacts.In_get.
    + apply Permutation_NoDup
        with (l := Dict.keys (filtered_scores round4 scores threshold)).
      * symmetry. now apply Permutation_map.
      * apply DictFacts.wf_of_items.
    + apply (Permutation_in _ (Permutation_sym Hperm)).
      rewrite Hf. apply in_map_iff. exists s. split; [reflexivity|].
      apply filter_In. split; [assumption | now apply fgt_true].
  - rewrite (Permutation_length Hperm), Hf. apply length_map.
Qed.

Lemma kept_labels_carry_rounded_scores_witness :
  exists d,
    pipeline_with_confidence sample_clf round4_decimal sample_row (1 # 2) [] =
    (Ok d, []) /\
    (forall s, In s [LabelScore "Victim" (1 # 10);
                     LabelScore "Martyr" (1 # 2);
                     LabelScore "Guardian" (9 # 10)] ->
               (1 # 2 < score s)%Q ->
               Dict.get (label s) d = Some (round4_decimal (score s))) /\
    List.length d =
    List.length (filter (fun s => fgt (score s) (1 # 2))
                        [LabelScore "Victim" (1 # 10);
                         LabelScore "Martyr" (1 # 2);
                         LabelScore "Guardian" (9 # 10)]).
Proof.
  apply (kept_labels_carry_rounded_scores sample_clf round4_decimal sample_row
           (1 # 2) _ [] []).
  - reflexivity.
  - simpl. repeat constructor; simpl; intuition discriminate.
Defined.

(** X10: for every row of the result, the text shown for its fine roles
    lists the entries of the margin mapping, each role with its own
    confidence, and is ["None"] when that mapping is empty; the dash that
    stands for a missing score is never shown.  The run raises only on a
    frame without rows. *)
Theorem formatted_roles_of_result_rows
  (clf_pipeline : string -> result (list (list label_score)))
  (round4 : pyfloat -> pyfloat) (fsub : pyfloat -> pyfloat -> pyfloat)
  (str_float : pyfloat -> string)
  (id : string) (df : list tc_row) (threshold margin : pyfloat)
  (out : list string) :
  match fst (run_stage2_with_cached_model clf_pipeline round4 fsub id df
               threshold margin out) with
  | Ok rows =>
      Forall (fun row =>
                formatted_roles str_float (predicted_fine_margin row)
                                (predicted_fine_with_scores row) =
                match p_fine_roles_w_conf row with
                | [] => "None"
                | _ :: _ =>
                    String.concat ", "
                      (map (fun rs =>
                              (fst rs ++ ": confidence = "
                                 ++ str_float (snd rs))%string)
                           (p_fine_roles_w_conf row))
                end)
             rows
  | Raise _ => df = []
  end.
Proof.
  destruct df as [|ex0 df0];
    [rewrite run_stage2_empty_frame; reflexivity|].
  rewrite run_stage2_closed_form by discriminate. cbn [fst].
  apply Forall_forall. intros row Hrow.
  apply in_map_iff in Hrow. destruct Hrow as [ex [<- _]].
  destruct (row_result_columns clf_pipeline round4 fsub id threshold margin ex)
    as [keep [Hm [Hc _]]].
  rewrite Hm, Hc.
  pose proof (row_scores_wf clf_pipeline round4 threshold ex) as Hwf.
  change (row_scores clf_pipeline round4 threshold ex)
    with (predicted_fine_with_scores
            (row_result clf_pipeline round4 fsub id threshold margin ex))
    in Hwf.
  set (sc := predicted_fine_with_scores
               (row_result clf_pipeline round4 fsub id threshold margin ex))
    in *.
  assert (map (fun role =>
                 (role ++ ": confidence = " ++
                  match Dict.get role sc with
                  | Some v => str_float v
                  | None => em_dash
                  end)%string)
              (map fst (filter (fun rs => keep (snd rs)) sc)) =
          map (fun rs =>
                 (fst rs ++ ": confidence = " ++ str_float (snd rs))%string)
              (filter (fun rs => keep (snd rs)) sc)) as Hmap.
  { rewrite map_map. apply map_ext_in. intros [role v] Hin. simpl.
    apply filter_In in Hin.
    now rewrite (DictFacts.In_get role v sc Hwf (proj1 Hin)). }
  unfold formatted_roles.
  destruct (filter (fun rs => keep (snd rs)) sc) as [|x l] eqn:E;
    [reflexivity|].
  cbn [map] in *. now rewrite Hmap.
Qed.

(** ** Model availability: what is reported *)

(** X11: prediction is available exactly when both loaders returned a
    model, and the error is [None] exactly then; the stage-2 message is
    reported exactly when the NER model loaded and the stage-2 model did not;
    and when prediction is unavailable the warning shows the reported error,
    never the fallback text ["Models not loaded"]. *)
Theorem availability_report {A B : Type}
  (ner_loader : result A) (stage2_loader : result B) :
  let branch := startup_check (load_model ner_loader)
                              (load_model stage2_loader) in
  (PREDICTION_AVAILABLE branch = true <->
   (exists m, ner_loader = Ok m) /\ (exists m, stage2_loader = Ok m)) /\
  (prediction_error branch = None <-> PREDICTION_AVAILABLE branch = true) /\
  (prediction_error branch = Some "Stage 2 model failed to load" <->
   (exists m, ner_loader = Ok m) /\ (exists e, stage2_loader = Raise e)) /\
  (PREDICTION_AVAILABLE branch = false ->
   prediction_error branch = Some (warning_detail (prediction_error branch)) /\
   warning_detail (prediction_error branch) <> "Models not loaded").
Proof.
  destruct ner_loader as [m|e], stage2_loader as [m'|e']; simpl;
    repeat split; try discriminate; try reflexivity; eauto;
    try (intros [[? H] _]; discriminate H);
    try (intros [_ [? H]]; discriminate H).
Qed.

(** ** [escape_entity] *)

Lemma escape_entity_cons c s :
  escape_entity (c :: s) =
  (if is_regex_meta c then [92%N; c] else [c]) ++ escape_entity s.
Proof. reflexivity. Qed.

(** X12: [escape_entity] is injective, leaves an entity without characters
    of the class unchanged, and adds one character for each character of the
    class. *)
Theorem escape_entity_faithful (entity : pystr) :
  (forall entity', escape_entity entity = escape_entity entity' ->
                   entity = entity') /\
  (forallb (fun c => negb (is_regex_meta c)) entity = true ->
   escape_entity entity = entity) /\
  List.length (escape_entity entity) =
  (List.length entity + List.length (filter is_regex_meta entity))%nat.
Proof.
  repeat split.
  - induction entity as [|c s IH]; intros [|c' s'].
    + reflexivity.
    + rewrite escape_entity_cons. simpl.
      destruct (is_regex_meta c'); discriminate.
    + rewrite escape_entity_cons. simpl.
      destruct (is_regex_meta c); discriminate.
    + rewrite !escape_entity_cons.
      destruct (is_regex_meta c) eqn:E, (is_regex_meta c') eqn:E'; simpl.
      * intros [= <- H]. f_equal. now apply IH.
      * intros [= <- H]. discriminate E'.
      * intros [= -> H]. discriminate E.
      * intros [= <- H]. f_equal. now apply IH.
  - induction entity as [|c s IH]; [reflexivity|].
    rewrite escape_entity_cons. simpl.
    destruct (is_regex_meta c); simpl; [discriminate|].
    intro H. f_equal. now apply IH.
  - induction entity as [|c s IH]; [reflexivity|].
    rewrite escape_entity_cons, length_app, IH. simpl.
    destruct (is_regex_meta c); simpl; lia.
Qed.

Example escape_entity_sample :
  escape_entity (codes "U.S. (Army)") = codes "U\.S\. \(Army\)".
Proof. reflexivity. Qed.

(** ** The grid of role columns *)

(** X13: every role index [0 <= idx < n] is given a cell of the grid, with
    its row below the number of rows made and its column below the number of
    columns per row, and two different indices are given different cells. *)
Theorem grid_cell_in_bounds (n idx : Z) (Hidx : (0 <= idx < n)%Z) :
  (0 <= fst (grid_cell n idx) < grid_rows n)%Z /\
  (0 <= snd (grid_cell n idx) < cols_per_row n)%Z /\
  (forall idx', (0 <= idx' < n)%Z ->
                grid_cell n idx' = grid_cell n idx -> idx' = idx).
Proof.
  unfold grid_cell, grid_rows, cols_per_row. cbn [fst snd].
  destruct (Z.ltb_spec 1 n) as [Hn|Hn].
  - repeat split.
    + apply Z.div_pos; lia.
    + apply Z.div_lt_upper_bound; [lia|].
      pose proof (Z.mul_div_le (n + 2 - 1) 2 ltac:(lia)).
      pose proof (Z.mod_pos_bound (n + 2 - 1) 2 ltac:(lia)).
      pose proof (Z.div_mod (n + 2 - 1) 2 ltac:(lia)). lia.
    + apply Z.mod_pos_bound. lia.
    + apply Z.mod_pos_bound. lia.
    + intros idx' _ [= H1 H2].
      rewrite (Z.div_mod idx 2), (Z.div_mod idx' 2) by lia. congruence.
  - rewrite !Z.div_1_r, Z.mod_1_r.
    split; [lia|]. split; [lia|]. intros idx' H _. lia.
Qed.

Lemma grid_cell_in_bounds_witness :
  (0 <= fst (grid_cell 3 2) < grid_rows 3)%Z /\
  (0 <= snd (grid_cell 3 2) < cols_per_row 3)%Z /\
  (forall idx', (0 <= idx' < 3)%Z ->
                grid_cell 3 idx' = grid_cell 3 2 -> idx' = 2%Z).
Proof. apply (grid_cell_in_bounds 3 2). lia. Defined.

(** ** The role filter: order, composition *)

Lemma filter_labels_by_role_closed_form labels role_filter :
  Dict.wf labels ->
  filter_labels_by_role labels role_filter =
  filter nonempty_entry
    (map (fun em => (fst em, filter (role_enabled role_filter) (snd em)))
         labels).
Proof.
  intro Hwf. unfold filter_labels_by_role, Dict.items.
  rewrite filter_labels_loop; [reflexivity | constructor | exact Hwf].
Qed.

Lemma filter_labels_by_role_wf labels role_filter :
  Dict.wf labels -> Dict.wf (filter_labels_by_role labels role_filter).
Proof.
  intro Hwf. rewrite filter_labels_by_role_closed_form by assumption.
  apply keys_filter_NoDup. unfold Dict.wf, Dict.keys.
  rewrite map_map. exact Hwf.
Qed.

(** X14: the entities of the filtered mapping are the entities that have a
    mention in an enabled role, in the order they have in [labels]; with an
    empty role filter the mapping is empty. *)
Theorem filter_labels_by_role_keeps_order
  (labels : Dict.t (list mention)) (role_filter : list string)
  (Hwf : Dict.wf labels) :
  Dict.keys (filter_labels_by_role labels role_filter) =
    map fst (filter (fun em => existsb (role_enabled role_filter) (snd em))
                    labels) /\
  filter_labels_by_role labels [] = Dict.empty.
Proof.
  rewrite !filter_labels_by_role_closed_form by assumption.
  clear Hwf. split.
  - unfold Dict.keys.
    induction labels as [|[entity mentions] labels IH]; [reflexivity|].
    cbn [map filter fst snd]. unfold nonempty_entry at 1. cbn [snd].
    assert (existsb (role_enabled role_filter) mentions =
            match filter (role_enabled role_filter) mentions with
            | [] => false | _ :: _ => true end) as ->.
    { clear. induction mentions as [|m ms IH]; [reflexivity|]. simpl.
      destruct (role_enabled role_filter m); [reflexivity | exact IH]. }
    destruct (filter (role_enabled role_filter) mentions);
      cbn [map fst]; now rewrite IH.
  - induction labels as [|[entity mentions] labels IH]; [reflexivity|].
    cbn [map filter fst snd]. unfold nonempty_entry at 1. cbn [snd].
    assert (filter (role_enabled []) mentions = []) as ->.
    { apply filter_none. intros m _. unfold role_enabled.
      destruct (Dict.get "main_role" m) as [[]|]; reflexivity. }
    exact IH.
Qed.

Lemma filter_labels_by_role_keeps_order_witness :
  Dict.keys (filter_labels_by_role sample_labels ["Antagonist"; "Innocent"]) =
    map fst (filter (fun em => existsb (role_enabled
                                          ["Antagonist"; "Innocent"])
                                       (snd em))
                    sample_labels) /\
  filter_labels_by_role sample_labels [] = Dict.empty.
Proof.
  apply (filter_labels_by_role_keeps_order sample_labels
           ["Antagonist"; "Innocent"]).
  unfold Dict.wf. simpl.
  repeat constructor; simpl; intuition discriminate.
Defined.

Lemma existsb_filter_inter (r : string) rf1 rf2 :
  existsb (String.eqb r) (filter (fun x => existsb (String.eqb x) rf2) rf1) =
  existsb (String.eqb r) rf1 && existsb (String.eqb r) rf2.
Proof.
  apply eq_true_iff_eq.
  rewrite andb_true_iff, !existsb_exists. split.
  - intros [x [Hx Hr]]. apply String.eqb_eq in Hr. subst x.
    apply filter_In in Hx. destruct Hx as [H1 H2].
    apply existsb_exists in H2. split; [|exact H2].
    exists r. split; [assumption | apply String.eqb_refl].
  - intros [[x [Hx Hr]] H2]. apply String.eqb_eq in Hr. subst x.
    exists r. split; [|apply String.eqb_refl].
    apply filter_In. split; [assumption|].
    apply existsb_exists. exact H2.
Qed.

Lemma role_enabled_inter rf1 rf2 m :
  role_enabled (filter (fun x => existsb (String.eqb x) rf2) rf1) m =
  role_enabled rf1 m && role_enabled rf2 m.
Proof.
  unfold role_enabled.
  destruct (Dict.get "main_role" m) as [[]|]; try reflexivity.
  apply existsb_filter_inter.
Qed.

Lemma filter_filter_role rf1 rf2 (ms : list mention) :
  filter (role_enabled rf2) (filter (role_enabled rf1) ms) =
  filter (role_enabled (filter (fun x => existsb (String.eqb x) rf2) rf1)) ms.
Proof.
  induction ms as [|m ms IH]; [reflexivity|]. simpl.
  rewrite role_enabled_inter.
  destruct (role_enabled rf1 m); simpl;
    [destruct (role_enabled rf2 m)|]; now rewrite IH.
Qed.

Lemma filter_all {A} (f : A -> bool) l :
  (forall x, In x l -> f x = true) -> filter f l = l.
Proof.
  induction l as [|x l IH]; simpl; intro H; [reflexivity|].
  rewrite (H x) by now left. f_equal. apply IH. intros y Hy. apply H.
  now right.
Qed.

(** X15: filtering by one role filter and then by another is filtering by
    the roles the two have in common; in particular filtering twice by the
    same filter changes nothing more. *)
Theorem filter_labels_by_role_composes
  (labels : Dict.t (list mention)) (rf1 rf2 : list string)
  (Hwf : Dict.wf labels) :
  filter_labels_by_role (filter_labels_by_role labels rf1) rf2 =
    filter_labels_by_role labels
      (filter (fun r => existsb (String.eqb r) rf2) rf1) /\
  filter_labels_by_role (filter_labels_by_role labels rf1) rf1 =
    filter_labels_by_role labels rf1.
Proof.
  assert (forall rf,
    filter_labels_by_role (filter_labels_by_role labels rf1) rf =
    filter_labels_by_role labels
      (filter (fun r => existsb (String.eqb r) rf) rf1)) as Hcomp.
  { intro rf.
    rewrite (filter_labels_by_role_closed_form
               (filter_labels_by_role labels rf1))
      by now apply filter_labels_by_role_wf.
    rewrite !filter_labels_by_role_closed_form by assumption.
    clear Hwf.
    induction labels as [|[entity mentions] labels IH]; [reflexivity|].
    cbn [map filter fst snd]. unfold nonempty_entry at 2 4. cbn [snd].
    rewrite <- filter_filter_role.
    destruct (filter (role_enabled rf1) mentions) as [|m ms] eqn:E.
    - cbn [filter]. exact IH.
    - cbn [map filter fst snd]. unfold nonempty_entry at 1. cbn [snd].
      destruct (filter (role_enabled rf) (m :: ms)); now rewrite IH. }
  split; [apply Hcomp|].
  rewrite Hcomp. f_equal. apply filter_all.
  intros r Hr. apply existsb_exists. exists r.
  split; [assumption | apply String.eqb_refl].
Qed.

Lemma filter_labels_by_role_composes_witness :
  filter_labels_by_role
    (filter_labels_by_role sample_labels ["Protagonist"; "Antagonist"])
    ["Antagonist"; "Innocent"] =
    filter_labels_by_role sample_labels
      (filter (fun r => existsb (String.eqb r) ["Antagonist"; "Innocent"])
              ["Protagonist"; "Antagonist"]) /\
  filter_labels_by_role
    (filter_labels_by_role sample_labels ["Protagonist"; "Antagonist"])
    ["Protagonist"; "Antagonist"] =
    filter_labels_by_role sample_labels ["Protagonist"; "Antagonist"].
Proof.
  apply (filter_labels_by_role_composes sample_labels
           ["Protagonist"; "Antagonist"] ["Antagonist"; "Innocent"]).
  unfold Dict.wf. simpl.
  repeat constructor; simpl; intuition discriminate.
Defined.

(** ** The sentences of a role column *)

Section Unique.
Context {A : Type} (eqb : A -> A -> bool).
Hypothesis eqb_eq : forall x y, eqb x y = true <-> x = y.

Lemma existsb_eqb_In x l : existsb (eqb x) l = true <-> In x l.
Proof.
  rewrite existsb_exists. split.
  - intros [y [Hy E]]. apply eqb_eq in E. now subst.
  - intro H. exists x. split; [assumption | now apply eqb_eq].
Qed.

Lemma unique_from_In l : forall seen x,
  In x (unique_from eqb seen l) <-> In x l /\ ~ In x seen.
Proof.
  induction l as [|y l IH]; intros seen x; simpl; [tauto|].
  destruct (existsb (eqb y) seen) eqn:E.
  - apply existsb_eqb_In in E. rewrite IH. split; [tauto|].
    intros [[<-|H] Hn]; tauto.
  - assert (~ In y seen) as Hy.
    { intro H. apply existsb_eqb_In in H. congruence. }
    simpl. rewrite IH. simpl. split.
    + intros [<-|[H1 H2]]; tauto.
    + intros [[<-|H1] H2]; [now left|].
      destruct (eqb x y) eqn:Exy.
      * apply eqb_eq in Exy. now left.
      * right. split; [assumption|]. intros [->|H]; [|tauto].
        assert (eqb x x = true) by now apply eqb_eq. congruence.
Qed.

Lemma unique_from_NoDup l : forall seen, NoDup (unique_from eqb seen l).
Proof.
  induction l as [|y l IH]; intro seen; simpl; [constructor|].
  destruct (existsb (eqb y) seen); [apply IH|].
  constructor; [|apply IH].
  rewrite unique_from_In. simpl. tauto.
Qed.

Lemma unique_from_length l : forall seen,
  (List.length (unique_from eqb seen l) <= List.length l)%nat.
Proof.
  induction l as [|y l IH]; intro seen; simpl; [lia|].
  destruct (existsb (eqb y) seen); simpl.
  - specialize (IH seen). lia.
  - specialize (IH (y :: seen)). lia.
Qed.
End Unique.

Lemma tuple_eqb_eq a : forall b, tuple_eqb a b = true <-> a = b.
Proof.
  induction a as [|x a IH]; intros [|y b]; simpl;
    try (split; [discriminate | discriminate]); [tauto|].
  rewrite andb_true_iff, String.eqb_eq, IH.
  split; [intros [-> ->]; reflexivity | intros [= -> ->]; tauto].
Qed.

Lemma sentence_row_eqb_eq a b : sentence_row_eqb a b = true <-> a = b.
Proof.
  unfold sentence_row_eqb. destruct a as [s1 t1], b as [s2 t2]. simpl.
  rewrite andb_true_iff, String.eqb_eq, tuple_eqb_eq.
  split; [intros [-> ->]; reflexivity | intros [= -> ->]; tauto].
Qed.

(** X16: in the column of a role, [format_sentence_with_spans] is called
    once for each distinct sentence of the rows of that role and for no other
    sentence; the number of calls is at most the number of labels shown in
    the header, which is at most the number of rows. *)
Theorem role_column_formats_each_sentence_once {Seen : Type}
  (format_sentence_with_spans :
     string -> Dict.t (list mention) -> pyfloat -> bool -> bool ->
     option Seen -> string * option Seen)
  (labels : Dict.t (list mention)) (role_filter : list string)
  (threshold : pyfloat) (hide_repeat : bool)
  (df_f : list framing_row) (role : string) :
  let sents :=
    map fst (calls_of (snd (render_role_sentences format_sentence_with_spans
                              labels role_filter threshold hide_repeat
                              (role_sentence_list df_f role)))) in
  NoDup sents /\
  (forall s, In s sents <->
             exists r, In r df_f /\ main_role r = role /\ sentence r = s) /\
  (List.length sents <= List.length (role_sentences df_f role))%nat /\
  (List.length (role_sentences df_f role) <= List.length df_f)%nat.
Proof.
  intro sents.
  assert (sents = role_sentence_list df_f role) as ->.
  { unfold sents, render_role_sentences, render_session.
    destruct (loop_body_threaded format_sentence_with_spans labels role_filter
                threshold hide_repeat false (role_sentence_list df_f role)
                None []) as [calls [H1 [H2 _]]].
    simpl in H1. now rewrite H1. }
  unfold role_sentence_list, role_sentences, unique.
  split; [apply unique_from_NoDup, String.eqb_eq|].
  split; [|split].
  - intro s. rewrite (unique_from_In String.eqb String.eqb_eq).
    rewrite in_map_iff. split.
    + intros [[[s' t] [<- H]] _].
      apply (unique_from_In sentence_row_eqb sentence_row_eqb_eq) in H.
      destruct H as [H _]. apply in_map_iff in H.
      destruct H as [r [[= <- <-] Hr]]. apply filter_In in Hr.
      exists r. rewrite String.eqb_eq in Hr. tauto.
    + intros [r [Hr [Hrole <-]]]. split; [|simpl; tauto].
      exists (sentence r, fine_roles r). split; [reflexivity|].
      apply (unique_from_In sentence_row_eqb sentence_row_eqb_eq).
      split; [|simpl; tauto].
      apply in_map_iff. exists r. split; [reflexivity|].
      apply filter_In. split; [assumption | now apply String.eqb_eq].
  - eapply Nat.le_trans; [apply unique_from_length|].
    now rewrite length_map.
  - eapply Nat.le_trans; [apply unique_from_length|].
    rewrite length_map. apply filter_length_le.
Qed.

(** ** The bias of the NER classifier *)

Lemma length_setitem {A} (l : list A) k v :
  (k < List.length l)%nat -> List.length (setitem l k v) = List.length l.
Proof.
  intro H. unfold setitem.
  rewrite length_app, length_firstn. cbn [List.length].
  rewrite length_skipn. lia.
Qed.

Lemma nth_error_setitem {A} (l : list A) k v i :
  (k < List.length l)%nat ->
  nth_error (setitem l k v) i = if (i =? k)%nat then Some v else nth_error l i.
Proof.
  intro H. unfold setitem.
  assert (List.length (firstn k l) = k) as Hlen
    by (rewrite length_firstn; lia).
  destruct (Nat.eqb_spec i k) as [->|Hne].
  - rewrite nth_error_app2 by lia. now rewrite Hlen, Nat.sub_diag.
  - destruct (Nat.lt_ge_cases i k) as [Hlt|Hge].
    + rewrite nth_error_app1 by lia.
      rewrite nth_error_firstn.
      destruct (Nat.ltb_spec i k); [reflexivity | lia].
    + rewrite nth_error_app2 by lia. rewrite Hlen.
      destruct (i - k)%nat as [|j] eqn:E; [lia|]. cbn [nth_error].
      rewrite nth_error_skipn. f_equal. lia.
Qed.

(** The bias after the first [k] iterations. *)
Lemma add_bias_prefix fadd o bias k :
  (k <= List.length bias)%nat ->
  let r := fold_left (add_bias_step fadd o) (seq 0 k) bias in
  List.length r = List.length bias /\
  forall i, nth_error r i =
            match nth_error bias i with
            | Some b =>
                Some (if (i <? k)%nat && negb (Z.of_nat i =? o)%Z
                      then fadd b 1 else b)
            | None => None
            end.
Proof.
  induction k as [|k IH]; intro Hk; cbv zeta.
  - simpl. split; [reflexivity|]. intro i. now destruct (nth_error bias i).
  - rewrite seq_S, fold_left_app. simpl.
    destruct (IH ltac:(lia)) as [Hlen Hnth]. cbv zeta in Hlen, Hnth.
    set (r := fold_left (add_bias_step fadd o) (seq 0 k) bias) in *.
    unfold add_bias_step.
    destruct (nth_error bias k) as [b|] eqn:Eb;
      [|apply nth_error_None in Eb; lia].
    pose proof (Hnth k) as Hk'. rewrite Eb, Nat.ltb_irrefl in Hk'.
    simpl in Hk'.
    destruct (Z.eqb_spec (Z.of_nat k) o) as [Ho|Ho].
    + split; [exact Hlen|]. intro i. rewrite Hnth.
      destruct (nth_error bias i) as [bi|]; [|reflexivity].
      destruct (Nat.eqb_spec i k) as [->|Hne].
      * rewrite (proj2 (Z.eqb_eq _ _) Ho). cbn [negb].
        now rewrite !andb_false_r.
      * destruct (Nat.ltb_spec i k), (Nat.ltb_spec i (S k));
          try lia; reflexivity.
    + rewrite Hk'. split; [rewrite length_setitem; lia|].
      intro i. rewrite nth_error_setitem by lia. rewrite Hnth.
      destruct (Nat.eqb_spec i k) as [->|Hne].
      * rewrite Eb. destruct (Nat.ltb_spec k (S k)); [|lia].
        destruct (Z.eqb_spec (Z.of_nat k) o); [contradiction | reflexivity].
      * destruct (nth_error bias i) as [bi|]; [|reflexivity].
        destruct (Nat.ltb_spec i k), (Nat.ltb_spec i (S k));
          try lia; reflexivity.
Qed.

(** X17: the bias keeps its length; the entry at the index of the label
    ["O"] (index 0 when the label is missing from [label2id]) is unchanged,
    and every other entry is increased by one. *)
Theorem add_bias_spares_only_O (fadd : pyfloat -> pyfloat -> pyfloat)
  (label2id : Dict.t Z) (current_bias : list pyfloat) :
  let o := match Dict.get "O" label2id with Some i => i | None => 0%Z end in
  List.length (add_bias fadd label2id current_bias) =
    List.length current_bias /\
  forall i b,
    nth_error current_bias i = Some b ->
    nth_error (add_bias fadd label2id current_bias) i =
    Some (if (Z.of_nat i =? o)%Z then b else fadd b 1).
Proof.
  intro o. unfold add_bias. fold o. change (o_index label2id) with o.
  destruct (add_bias_prefix fadd o current_bias (List.length current_bias)
              (Nat.le_refl _)) as [Hlen Hnth].
  split; [exact Hlen|].
  intros i b Hb. cbv zeta in Hnth. rewrite Hnth, Hb.
  assert (i < List.length current_bias)%nat as Hi
    by (apply nth_error_Some; congruence).
  destruct (Nat.ltb_spec i (List.length current_bias)); [|lia].
  now destruct (Z.of_nat i =? o)%Z.
Qed.

Example add_bias_sample :
  add_bias Qplus [("B-PER", 1%Z); ("O", 2%Z)] [1 # 2; 0; 3] = [3 # 2; 1; 3] /\
  add_bias Qplus [("B-PER", 1%Z)] [1 # 2; 0; 3] = [1 # 2; 1; 4].
Proof. split; reflexivity. Qed.

(** ** The prediction lines *)

Lemma split_no_sep sep s : ~ In sep s -> split sep s = [s].
Proof.
  induction s as [|c s IH]; simpl; intro H; [reflexivity|].
  destruct (N.eqb_spec c sep) as [->|_]; [exfalso; apply H; now left|].
  rewrite IH by tauto. reflexivity.
Qed.

Lemma split_app_sep sep a b :
  ~ In sep a -> split sep (a ++ sep :: b) = a :: split sep b.
Proof.
  induction a as [|c a IH]; simpl; intro H.
  - now rewrite N.eqb_refl.
  - destruct (N.eqb_spec c sep) as [->|_]; [exfalso; apply H; now left|].
    rewrite IH by tauto. reflexivity.
Qed.

Lemma split_length sep s :
  List.length (split sep s) =
  S (List.length (filter (fun c => (c =? sep)%N) s)).
Proof.
  induction s as [|c s IH]; simpl; [reflexivity|].
  destruct (c =? sep)%N; simpl; [now rewrite IH|].
  destruct (split sep s) as [|f fs]; simpl in *; [discriminate | exact IH].
Qed.

Lemma filter_sep_none sep s :
  ~ In sep s -> filter (fun c => (c =? sep)%N) s = [].
Proof.
  intro H. apply filter_none. intros c Hc.
  destruct (N.eqb_spec c sep); [subst; contradiction | reflexivity].
Qed.

Lemma filter_sep_some sep s :
  In sep s -> (0 < List.length (filter (fun c => (c =? sep)%N) s))%nat.
Proof.
  intro H.
  assert (In sep (filter (fun c => (c =? sep)%N) s)) as Hin
    by (apply filter_In; split; [assumption | apply N.eqb_refl]).
  destruct (filter (fun c => (c =? sep)%N) s); [contradiction | simpl; lia].
Qed.

(** The characters of the decimal form of an integer. *)
Lemma str_of_Z_chars z : Forall (fun c => (45 <= c <= 57)%N) (str_of_Z z).
Proof.
  assert (forall d, Forall (fun c => (45 <= c <= 57)%N)
                           (codes (NilEmpty.string_of_uint d))) as Hu.
  { induction d; simpl; try constructor; try assumption; cbv; split;
      discriminate. }
  assert (forall d, Forall (fun c => (45 <= c <= 57)%N)
                           (codes (NilZero.string_of_uint d))) as Hz.
  { intro d. destruct d; try apply Hu.
    repeat constructor; cbv; discriminate. }
  unfold str_of_Z. destruct (Z.to_int z) as [d|d]; simpl.
  - apply Hz.
  - constructor; [cbv; split; discriminate | apply Hz].
Qed.

Lemma str_of_Z_no_tab z : ~ In tab (str_of_Z z).
Proof.
  intro H. pose proof (str_of_Z_chars z) as Hc.
  rewrite Forall_forall in Hc. specialize (Hc tab H).
  unfold tab in Hc. lia.
Qed.

Lemma role_name_no_tab r :
  In r ["Protagonist"; "Antagonist"; "Innocent"; "Unknown"] ->
  ~ In tab (codes r).
Proof.
  intros [<-|[<-|[<-|[<-|[]]]]]; cbv; intuition discriminate.
Qed.

Lemma role_field_confidence_codes sp r :
  In r ["Protagonist"; "Antagonist"; "Innocent"; "Unknown"] ->
  role_field_confidence sp (codes r) = role_confidence sp r.
Proof.
  intros [<-|[<-|[<-|[<-|[]]]]]; reflexivity.
Qed.

(** The fields of a line and their number. *)
Lemma format_line_fields p :
  ~ In tab (codes (pred_article_id p)) ->
  ~ In tab (codes (pred_role p)) ->
  List.length (split tab (format_line p)) =
    (5 + List.length (filter (fun c => (c =? tab)%N)
                             (pred_entity_text p)))%nat /\
  (~ In tab (pred_entity_text p) ->
   split tab (format_line p) =
   [codes (pred_article_id p); pred_entity_text p;
    str_of_Z (pred_start p); str_of_Z (pred_end p); codes (pred_role p)]).
Proof.
  intros Hid Hrole. unfold format_line. split.
  - rewrite split_length.
    assert (forall a b,
      filter (fun c => (c =? tab)%N) (a ++ tab :: b) =
      filter (fun c => (c =? tab)%N) a ++
      tab :: filter (fun c => (c =? tab)%N) b) as Hcut.
    { intros a b. rewrite filter_app. cbn [filter].
      now rewrite N.eqb_refl. }
    rewrite !Hcut.
    rewrite (filter_sep_none tab (codes (pred_article_id p))) by assumption.
    rewrite (filter_sep_none tab (codes (pred_role p))) by assumption.
    rewrite !(filter_sep_none tab (str_of_Z _)) by apply str_of_Z_no_tab.
    cbn [app List.length]. rewrite length_app. cbn [List.length]. lia.
  - intro He.
    rewrite split_app_sep by assumption.
    rewrite split_app_sep by assumption.
    rewrite split_app_sep by apply str_of_Z_no_tab.
    rewrite split_app_sep by apply str_of_Z_no_tab.
    now rewrite split_no_sep by assumption.
Qed.

Lemma predictions_have_role_names id bert text p :
  In p (fst (predict_with_cached_model id bert text)) ->
  pred_article_id p = id /\
  In (pred_role p) ["Protagonist"; "Antagonist"; "Innocent"; "Unknown"].
Proof.
  unfold predict_with_cached_model. cbn [fst]. intro H.
  apply in_map_iff in H. destruct H as [x [<- H]].
  apply in_map_iff in H. destruct H as [sp [<- _]].
  pose proof (trim_span_role text sp) as Hr.
  destruct (trim_span text sp) as [[s e] r]. simpl in *. tauto.
Qed.

(** X18: when the article id holds no tab, the line of every prediction
    has five fields plus one for each tab in its entity text; without a tab
    in the entity text, splitting the line on tabs gives back the article
    id, the entity text, the two offsets in decimal and the role. *)
Theorem prediction_line_splits_into_its_fields (id : string)
  (bert_model : pystr -> list span) (text : pystr)
  (Hid : ~ In tab (codes id)) :
  Forall (fun p =>
            List.length (split tab (format_line p)) =
              (5 + List.length (filter (fun c => (c =? tab)%N)
                                       (pred_entity_text p)))%nat /\
            (~ In tab (pred_entity_text p) ->
             split tab (format_line p) =
             [codes id; pred_entity_text p; str_of_Z (pred_start p);
              str_of_Z (pred_end p); codes (pred_role p)]))
         (fst (predict_with_cached_model id bert_model text)).
Proof.
  apply Forall_forall. intros p Hp.
  destruct (predictions_have_role_names id bert_model text p Hp)
    as [Hpid Hrole].
  destruct (format_line_fields p) as [H1 H2].
  { now rewrite Hpid. }
  { now apply role_name_no_tab. }
  rewrite Hpid in H2. tauto.
Qed.

Lemma prediction_line_splits_into_its_fields_witness :
  Forall (fun p =>
            List.length (split tab (format_line p)) =
              (5 + List.length (filter (fun c => (c =? tab)%N)
                                       (pred_entity_text p)))%nat /\
            (~ In tab (pred_entity_text p) ->
             split tab (format_line p) =
             [codes "a1"; pred_entity_text p; str_of_Z (pred_start p);
              str_of_Z (pred_end p); codes (pred_role p)]))
         (fst (predict_with_cached_model "a1" sample_bert sample_text)).
Proof.
  apply (prediction_line_splits_into_its_fields "a1" sample_bert sample_text).
  cbv. intuition discriminate.
Defined.

Example format_line_sample :
  map format_line
      (fst (predict_with_cached_model "a1" sample_bert sample_text)) =
  [codes "a1" ++ [tab] ++ codes "Bob" ++ [tab] ++ codes "10" ++ [tab]
     ++ codes "13" ++ [tab] ++ codes "Antagonist";
   codes "a1" ++ [tab] ++ [] ++ [tab] ++ codes "6" ++ [tab]
     ++ codes "5" ++ [tab] ++ codes "Unknown"].
Proof. reflexivity. Qed.

Section LineLookup.
Variable py_int : pystr -> result Z.
Hypothesis py_int_str : forall z, py_int (str_of_Z z) = Ok z.

Lemma search_spans_find spans s e r :
  In r ["Protagonist"; "Antagonist"; "Innocent"; "Unknown"] ->
  search_spans py_int spans (str_of_Z s) (str_of_Z e) (codes r) =
  Ok (find_confidence spans s e r).
Proof.
  intro Hr. induction spans as [|sp spans IH]; simpl; [reflexivity|].
  rewrite !py_int_str.
  destruct (start sp =? s)%Z; simpl; [|exact IH].
  destruct (end_ sp =? e)%Z; [|exact IH].
  now rewrite role_field_confidence_codes.
Qed.

Lemma entity_confidence_line spans p :
  ~ In tab (codes (pred_article_id p)) ->
  In (pred_role p) ["Protagonist"; "Antagonist"; "Innocent"; "Unknown"] ->
  (In tab (pred_entity_text p) ->
   entity_confidence py_int spans (format_line p) =
   Raise (Exception "too many values to unpack (expected 5)")) /\
  (~ In tab (pred_entity_text p) ->
   entity_confidence py_int spans (format_line p) =
   Ok (find_confidence spans (pred_start p) (pred_end p) (pred_role p))).
Proof.
  intros Hid Hrole.
  destruct (format_line_fields p Hid (role_name_no_tab _ Hrole)) as [Hlen Hf].
  unfold entity_confidence. split.
  - intro Htab. apply filter_sep_some in Htab.
    destruct (split tab (format_line p)) as [|f1 [|f2 [|f3 [|f4 [|f5 [|f6 fs]]]]]];
      simpl in Hlen; try lia. reflexivity.
  - intro Hno. rewrite (Hf Hno). now apply search_spans_find.
Qed.
End LineLookup.

Lemma find_confidence_none spans s e r :
  (forall sp, In sp spans -> ~ (start sp = s /\ end_ sp = e)) ->
  find_confidence spans s e r = None.
Proof.
  induction spans as [|sp spans IH]; intro Hnone; [reflexivity|]. simpl.
  destruct (Z.eqb_spec (start sp) s) as [Hs|Hs];
    [destruct (Z.eqb_spec (end_ sp) e) as [He|He]|]; simpl.
  - exfalso. apply (Hnone sp); [now left | tauto].
  - apply IH. intros sp' Hsp'. apply Hnone. now right.
  - apply IH. intros sp' Hsp'. apply Hnone. now right.
Qed.

(** X19: with an [int] that reads back what [str] writes, and an article id
    without a tab: for the line of a prediction whose entity text holds a
    tab, unpacking the fields raises ["too many values to unpack"]; for
    every other line the confidence found is that of the first span of
    [entity_spans] whose offsets are the trimmed offsets of the prediction,
    for the role of the prediction, or none when no span has them. *)
Theorem entity_confidence_of_prediction_line
  (py_int : pystr -> result Z) (id : string)
  (bert_model : pystr -> list span) (text : pystr)
  (Hint : forall z, py_int (str_of_Z z) = Ok z)
  (Hid : ~ In tab (codes id)) :
  Forall (fun p =>
            (In tab (pred_entity_text p) ->
             entity_confidence py_int (bert_model text) (format_line p) =
             Raise (Exception "too many values to unpack (expected 5)")) /\
            (~ In tab (pred_entity_text p) ->
             entity_confidence py_int (bert_model text) (format_line p) =
             Ok (find_confidence (bert_model text) (pred_start p)
                                 (pred_end p) (pred_role p))) /\
            (~ In tab (pred_entity_text p) ->
             (forall sp, In sp (bert_model text) ->
                         ~ (start sp = pred_start p /\
                            end_ sp = pred_end p)) ->
             entity_confidence py_int (bert_model text) (format_line p) =
             Ok None))
         (fst (predict_with_cached_model id bert_model text)).
Proof.
  apply Forall_forall. intros p Hp.
  destruct (predictions_have_role_names id bert_model text p Hp)
    as [Hpid Hrole].
  destruct (entity_confidence_line py_int Hint (bert_model text) p)
    as [H1 H2]; [now rewrite Hpid | assumption |].
  split; [exact H1|]. split; [exact H2|].
  intros Hno Hnone. rewrite (H2 Hno). f_equal.
  now apply find_confidence_none.
Qed.

Lemma string_of_codes_codes s : string_of_codes (codes s) = Some s.
Proof.
  unfold string_of_codes, codes.
  assert (forallb (fun c => (c <? 256)%N)
                  (map N_of_ascii (list_ascii_of_string s)) = true) as ->.
  { apply forallb_forall. intros c Hc. apply in_map_iff in Hc.
    destruct Hc as [a [<- _]]. apply N.ltb_lt, N_ascii_bounded. }
  rewrite map_map.
  rewrite (map_ext _ (fun a => a) ascii_N_embedding), map_id.
  now rewrite string_of_list_ascii_of_string.
Qed.

Lemma int_of_decimal_str_of_Z z : int_of_decimal (str_of_Z z) = Ok z.
Proof.
  unfold int_of_decimal, str_of_Z. rewrite string_of_codes_codes.
  rewrite NilZero.isi.
  - now rewrite DecimalZ.of_to.
  - destruct z; simpl; try discriminate.
    intros [= H]. now apply Unsigned.to_uint_nonnil in H.
  - destruct z; simpl; try discriminate.
    intros [= H]. now apply Unsigned.to_uint_nonnil in H.
Qed.

Lemma entity_confidence_of_prediction_line_witness :
  Forall (fun p =>
            (In tab (pred_entity_text p) ->
             entity_confidence int_of_decimal (sample_bert sample_text)
               (format_line p) =
             Raise (Exception "too many values to unpack (expected 5)")) /\
            (~ In tab (pred_entity_text p) ->
             entity_confidence int_of_decimal (sample_bert sample_text)
               (format_line p) =
             Ok (find_confidence (sample_bert sample_text) (pred_start p)
                                 (pred_end p) (pred_role p))) /\
            (~ In tab (pred_entity_text p) ->
             (forall sp, In sp (sample_bert sample_text) ->
                         ~ (start sp = pred_start p /\
                            end_ sp = pred_end p)) ->
             entity_confidence int_of_decimal (sample_bert sample_text)
               (format_line p) =
             Ok None))
         (fst (predict_with_cached_model "a1" sample_bert sample_text)).
Proof.
  apply (entity_confidence_of_prediction_line int_of_decimal "a1" sample_bert
           sample_text int_of_decimal_str_of_Z).
  cbv. intuition discriminate.
Defined.

Example entity_confidence_sample :
  map (entity_confidence int_of_decimal (sample_bert sample_text))
      (map format_line
           (fst (predict_with_cached_model "a1" sample_bert sample_text))) =
  [Ok None; Ok None] /\
  entity_confidence int_of_decimal [Span 0 5 (1 # 8) (5 # 8) (1 # 8) (1 # 8)]
    (format_line (Prediction "a1" (codes "Alice") 0 5 "Protagonist")) =
  Ok (Some (5 # 8)).
Proof. split; reflexivity. Qed.

(** ** When the offsets of a span survive the trimming *)

Lemma trim_span_offsets_unchanged text sp :
  (0 <= start sp <= end_ sp)%Z -> (end_ sp <= len text)%Z ->
  (fst (fst (trim_span text sp)) = start sp /\
   snd (fst (trim_span text sp)) = end_ sp) <->
  strip (slice text (start sp) (end_ sp)) = slice text (start sp) (end_ sp).
Proof.
  intros H1 H2.
  destruct (slice_split text (start sp) (end_ sp) H1 H2)
    as [pre0 [post0 [_ [_ Hseglen]]]].
  destruct (trim_span_offsets text sp H1 H2)
    as [[Hs [Hst He]]|[Hne [pre [l [t [post [Ht [Hpre [Hst [He Hend]]]]]]]]]].
  - rewrite Hst, He, Hs. split.
    + intros [Hse _].
      destruct (slice text (start sp) (end_ sp)); [reflexivity|].
      unfold len in Hseglen. simpl in Hseglen. lia.
    + intro H0. rewrite <- H0 in Hseglen. unfold len in Hseglen.
      simpl in Hseglen. lia.
  - set (seg := slice text (start sp) (end_ sp)) in *.
    assert (seg = l ++ strip seg ++ t) as Hseg.
    { assert (forall x, text = pre ++ x ++ post ->
                        (len pre + len x)%Z = end_ sp ->
                        slice text (start sp) (end_ sp) = x) as Hmid.
      { intros x -> Hx. rewrite <- Hpre, <- Hx. apply slice_middle. }
      apply Hmid; [exact Ht|].
      unfold len in *. rewrite !length_app. lia. }
    pose proof (f_equal (@List.length N) Hseg) as Hlen.
    rewrite !length_app in Hlen.
    rewrite Hst, He. unfold len in *. split.
    + intros [Hl Hr].
      assert (l = []) as -> by (destruct l; [reflexivity | simpl in *; lia]).
      assert (t = []) as -> by (destruct t; [reflexivity | simpl in *; lia]).
      rewrite Hseg at 2. simpl. now rewrite app_nil_r.
    + intro H0. rewrite H0 in Hlen. lia.
Qed.

(** X20: for a span inside the text, the prediction keeps the offsets of
    the span exactly when the slice of the span has no whitespace at its
    start or end (it is its own stripped form). *)
Theorem offsets_unchanged_iff_slice_is_stripped (id : string)
  (bert_model : pystr -> list span) (text : pystr) :
  Forall2 (fun sp p =>
             (0 <= start sp <= end_ sp)%Z -> (end_ sp <= len text)%Z ->
             ((pred_start p = start sp /\ pred_end p = end_ sp) <->
              strip (slice text (start sp) (end_ sp)) =
              slice text (start sp) (end_ sp)))
          (bert_model text)
          (fst (predict_with_cached_model id bert_model text)).
Proof.
  apply predictions_pointwise. intros sp H1 H2.
  pose proof (trim_span_offsets_unchanged text sp H1 H2) as H.
  destruct (trim_span text sp) as [[s e] r]. exact H.
Qed.

Lemma find_confidence_skip pre rest s e r :
  (forall sp, In sp pre -> ~ (start sp = s /\ end_ sp = e)) ->
  find_confidence (pre ++ rest) s e r = find_confidence rest s e r.
Proof.
  induction pre as [|sp pre IH]; intro Hnone; [reflexivity|]. simpl.
  destruct (Z.eqb_spec (start sp) s) as [Hs|Hs];
    [destruct (Z.eqb_spec (end_ sp) e) as [He|He]|]; simpl.
  - exfalso. apply (Hnone sp); [now left | tauto].
  - apply IH. intros sp' Hsp'. apply Hnone. now right.
  - apply IH. intros sp' Hsp'. apply Hnone. now right.
Qed.

(** X21: with an [int] that reads back what [str] writes and an article id
    without a tab: for a span inside the text whose slice is its own
    stripped form and holds no tab, and that is the first of [entity_spans]
    with its offsets, the confidence found for the line of its prediction is
    the probability that the span gives to the role of the prediction, and
    it is the greatest of the four probabilities of the span. *)
Theorem confidence_of_untrimmed_span
  (py_int : pystr -> result Z) (id : string)
  (bert_model : pystr -> list span) (text : pystr)
  (pre : list span) (sp : span) (post : list span)
  (Hint : forall z, py_int (str_of_Z z) = Ok z)
  (Hid : ~ In tab (codes id))
  (Hspans : bert_model text = pre ++ sp :: post)
  (Hfirst : forall sp', In sp' pre ->
                        ~ (start sp' = start sp /\ end_ sp' = end_ sp))
  (Hin : (0 <= start sp <= end_ sp)%Z) (Hend : (end_ sp <= len text)%Z)
  (Hstripped : strip (slice text (start sp) (end_ sp)) =
               slice text (start sp) (end_ sp))
  (Hnotab : ~ In tab (slice text (start sp) (end_ sp))) :
  exists c,
    entity_confidence py_int (bert_model text)
      (format_line (output_line id text (trim_span text sp))) = Ok (Some c) /\
    role_confidence sp
      (pred_role (output_line id text (trim_span text sp))) = Some c /\
    (prob_antagonist sp <= c)%Q /\ (prob_protagonist sp <= c)%Q /\
    (prob_innocent sp <= c)%Q /\ (prob_unknown sp <= c)%Q.
Proof.
  pose proof (proj2 (trim_span_offsets_unchanged text sp Hin Hend) Hstripped)
    as [Hs He].
  destruct (trim_span_role_prob text sp) as [c [Hc Hmax]].
  pose proof (trim_span_role text sp) as Hrole.
  destruct (trim_span text sp) as [[s e] r]. cbn [fst snd] in *. subst s e.
  exists c. split; [|split; [exact Hc | exact Hmax]].
  destruct (entity_confidence_line py_int Hint (bert_model text)
              (output_line id text (start sp, end_ sp, r)))
    as [_ H2]; [exact Hid | exact Hrole |].
  rewrite H2.
  - cbn [output_line pred_start pred_end pred_role].
    rewrite Hspans, find_confidence_skip by assumption.
    cbn [find_confidence]. rewrite !Z.eqb_refl. cbn [andb].
    now rewrite Hc.
  - cbn [output_line pred_entity_text]. intro Htab.
    apply strip_incl in Htab. unfold replace1 in Htab.
    apply in_map_iff in Htab. destruct Htab as [c1 [Hc1 Htab]].
    apply in_map_iff in Htab. destruct Htab as [c2 [Hc2 Htab]].
    destruct (c2 =? 10)%N; [rewrite <- Hc2 in Hc1; discriminate Hc1|].
    rewrite Hc2 in Htab.
    destruct (c1 =? 13)%N; [discriminate Hc1|].
    rewrite Hc1 in Htab. exact (Hnotab Htab).
Qed.

Lemma confidence_of_untrimmed_span_witness :
  exists c,
    entity_confidence int_of_decimal
      [Span 0 5 (1 # 8) (5 # 8) (1 # 8) (1 # 8)]
      (format_line
         (output_line "a1" sample_text
            (trim_span sample_text
               (Span 0 5 (1 # 8) (5 # 8) (1 # 8) (1 # 8))))) = Ok (Some c) /\
    role_confidence (Span 0 5 (1 # 8) (5 # 8) (1 # 8) (1 # 8))
      (pred_role
         (output_line "a1" sample_text
            (trim_span sample_text
               (Span 0 5 (1 # 8) (5 # 8) (1 # 8) (1 # 8))))) = Some c /\
    (1 # 8 <= c)%Q /\ (5 # 8 <= c)%Q /\ (1 # 8 <= c)%Q /\ (1 # 8 <= c)%Q.
Proof.
  apply (confidence_of_untrimmed_span int_of_decimal "a1"
           (fun _ => [Span 0 5 (1 # 8) (5 # 8) (1 # 8) (1 # 8)]) sample_text
           [] (Span 0 5 (1 # 8) (5 # 8) (1 # 8) (1 # 8)) []
           int_of_decimal_str_of_Z).
  - cbv. intuition discriminate.
  - reflexivity.
  - intros sp' [].
  - simpl. lia.
  - unfold len. simpl. lia.
  - reflexivity.
  - cbv. intuition discriminate.
Defined.
